(** * GPA & Graduation Planner: the arithmetic core of [main.py]

    A shallow embedding of the GPA engine, the CGPA engine, the honours
    classifier, the projection engine and the heuristic advisor of
    [main.py], together with the tables and the [Course] schema of
    [schemas.py].

    Modelling conventions.
    - Python [float] values are modelled twice.  The first embedding uses
      exact rationals [Q]: the four operations are exact and [round(x, 3)]
      is rounding to the nearest multiple of 1/1000, ties to the even
      multiple; it serves the properties that do not depend on the last
      bit of a double (error paths, which branch is taken, bounds with
      slack).  The second embedding, module [Dbl], computes on IEEE 754
      binary64 values (module [F64], on the Standard Library's
      [spec_float]) with the operations rounded as the hardware rounds
      them and [round(x, 3)] as CPython computes it; it serves the
      properties that fix a value or a boundary.
    - Python [str] values are modelled by [string]; [strip], [upper] and
      [lower] act on the ASCII range and leave other characters alone.
    - [HTTPException(status_code=400, ...)] is an [error] value, one
      constructor per [detail] text; functions that may raise return
      [result].
    - Python dictionaries whose iteration order matters are association
      lists in insertion order; the [seen] set of [compute_gpa] is a
      [gset string]. *)

From Stdlib Require Import Ascii String Sorted QArith Qround Lqa SpecFloat.
From stdpp Require Import base option list strings pretty gmap.

Local Open Scope Q_scope.

(** ** Numbers *)

Module Num.

Definition ltb (x y : Q) : bool := negb (Qle_bool y x).
Definition leb (x y : Q) : bool := Qle_bool x y.

(** [min(a, b)] and [max(a, b)] as the Python builtins compute them: the
    first argument is kept unless the second is strictly better. *)
Definition py_min (a b : Q) : Q := if ltb b a then b else a.
Definition py_max (a b : Q) : Q := if ltb a b then b else a.

(** Nearest integer, ties to even. *)
Definition round_half_even (x : Q) : Z :=
  let f := Qfloor x in
  match Qcompare (x - inject_Z f) (1 # 2) with
  | Lt => f
  | Gt => (f + 1)%Z
  | Eq => if Z.even f then f else (f + 1)%Z
  end.

(** [round(x, 3)]. *)
Definition round3 (x : Q) : Q := round_half_even (x * 1000) # 1000.

(** [sum(xs)], starting from [0] and adding left to right. *)
Definition sum (xs : list Q) : Q := fold_left Qplus xs 0.

End Num.

(** ** Strings *)

Module Str.

Definition in_range (lo hi : N) (c : ascii) : bool :=
  let n := N_of_ascii c in ((lo <=? n) && (n <=? hi))%N.

(** The ASCII characters [str.isspace] accepts: TAB, LF, VT, FF, CR,
    FS, GS, RS, US and the space. *)
Definition is_space (c : ascii) : bool := in_range 9 13 c || in_range 28 32 c.
Definition is_lower (c : ascii) : bool := in_range 97 122 c.
Definition is_upper (c : ascii) : bool := in_range 65 90 c.

Definition upper_char (c : ascii) : ascii :=
  if is_lower c then ascii_of_N (N_of_ascii c - 32) else c.
Definition lower_char (c : ascii) : ascii :=
  if is_upper c then ascii_of_N (N_of_ascii c + 32) else c.

Fixpoint map (f : ascii -> ascii) (s : string) : string :=
  match s with
  | EmptyString => EmptyString
  | String c s' => String (f c) (map f s')
  end.

(** [s.upper()] and [s.lower()]. *)
Definition upper : string -> string := map upper_char.
Definition lower : string -> string := map lower_char.

Fixpoint lstrip (s : string) : string :=
  match s with
  | EmptyString => EmptyString
  | String c s' => if is_space c then lstrip s' else s
  end.

Fixpoint rstrip (s : string) : string :=
  match s with
  | EmptyString => EmptyString
  | String c s' =>
      match rstrip s' with
      | EmptyString => if is_space c then EmptyString else String c EmptyString
      | r => String c r
      end
  end.

(** [s.strip()]. *)
Definition strip (s : string) : string := rstrip (lstrip s).

Fixpoint all_space (s : string) : bool :=
  match s with
  | EmptyString => true
  | String c s' => is_space c && all_space s'
  end.

(** [sep.join(xs)]. *)
Fixpoint join (sep : string) (xs : list string) : string :=
  match xs with
  | [] => ""
  | [x] => x
  | x :: xs' => x +:+ sep +:+ join sep xs'
  end.

(** Two characters that are equal, or the same ASCII letter in the two
    cases. *)
Definition same_letter (a b : ascii) : bool :=
  Ascii.eqb a b
  || (is_lower a && Ascii.eqb b (upper_char a))
  || (is_lower b && Ascii.eqb a (upper_char b)).

Fixpoint eq_nocase (s t : string) : bool :=
  match s, t with
  | EmptyString, EmptyString => true
  | String a s', String b t' => same_letter a b && eq_nocase s' t'
  | _, _ => false
  end.

(** [r1] and [r2] differ only in letter case and in leading or trailing
    whitespace: each is a core padded with whitespace on both sides, and
    the two cores agree character by character up to case. *)
Definition differ_only_in_case_or_padding (r1 r2 : string) : Prop :=
  exists l1 m1 t1 l2 m2 t2,
    r1 = l1 +:+ m1 +:+ t1 /\ r2 = l2 +:+ m2 +:+ t2 /\
    all_space l1 = true /\ all_space t1 = true /\
    all_space l2 = true /\ all_space t2 = true /\
    eq_nocase m1 m2 = true.

End Str.

(** ** Errors *)

(** The [HTTPException]s the core raises, by their [detail] text, and the
    [KeyError] of a dictionary subscript. *)
Inductive error : Type :=
| InvalidGrade (grade : string)          (* "Invalid grade '...'. Allowed: [...]" *)
| DuplicateCourse (code : string)        (* "Duplicate course entry: ..." *)
| InvalidCreditHours (code : string)     (* "Invalid credit hours for ..." *)
| UnknownTargetClass                     (* "Unknown target_class. Choose one of: [...]" *)
| KeyError (key : string).

Inductive result (A : Type) : Type :=
| Ok (a : A)
| Err (e : error).
Arguments Ok {A} a.
Arguments Err {A} e.

Definition bind {A B : Type} (m : result A) (k : A -> result B) : result B :=
  match m with
  | Ok a => k a
  | Err e => Err e
  end.

Notation "'let*' x ':=' m 'in' k" := (bind m (fun x => k))
  (at level 10, x name, m at level 100, k at level 200).

(** ** [schemas.py] *)

Inductive GradeLetter : Type := A | B | C | D | E | F.

Definition GradeLetter_str (g : GradeLetter) : string :=
  match g with
  | A => "A" | B => "B" | C => "C" | D => "D" | E => "E" | F => "F"
  end.

Definition GRADE_POINTS : gmap string Q :=
  <["F" := 0]> (<["E" := 1 # 2]> (<["D" := 1]> (<["C" := 2]>
    (<["B" := 3]> (<["A" := 4]> ∅))))).

(** Insertion-ordered dictionary: [items()] yields the pairs in this
    order. *)
Definition HONORS_BANDS : list (string * Q) :=
  [ ("First Class Honors", 370 # 100);
    ("Second Class Upper", 330 # 100);
    ("Second Class Lower", 270 # 100);
    ("Pass", 200 # 100) ].

Module Dict.
Section Ordered.
Context {V : Type}.

Fixpoint get (k : string) (d : list (string * V)) : option V :=
  match d with
  | [] => None
  | (k', v) :: d' => if String.eqb k k' then Some v else get k d'
  end.

(** [k in d]. *)
Definition mem (k : string) (d : list (string * V)) : bool :=
  match get k d with Some _ => true | None => false end.

(** [d[k]]. *)
Definition getitem (k : string) (d : list (string * V)) : result V :=
  match get k d with Some v => Ok v | None => Err (KeyError k) end.
End Ordered.
End Dict.

Record Course : Type := {
  code : string;
  name : string;
  credit_hours : Q;
  grade : option GradeLetter;
  semester : option Z;
  category : option string
}.

(** The [validator('code')] of [Course]. *)
Definition normalize_code (v : string) : string := Str.upper (Str.strip v).

Definition length_between (lo hi : nat) (s : string) : bool :=
  (lo <=? String.length s)%nat && (String.length s <=? hi)%nat.

(** The [Field] constraint [gt=0, le=10] of [Course.credit_hours]. *)
Definition credit_hours_field (h : Q) : bool := Num.ltb 0 h && Num.leb h 10.

(** [Course(code=..., name=..., ...)]: the field constraints are checked on
    the values given, then the code is normalized; [None] stands for
    pydantic's [ValidationError]. *)
Definition Course_new (raw_code raw_name : string) (hours : Q)
    (g : option GradeLetter) (sem : option Z) (cat : option string)
  : option Course :=
  if length_between 2 16 raw_code
     && length_between 2 64 raw_name
     && credit_hours_field hours
     && match sem with Some n => (1 <=? n)%Z && (n <=? 12)%Z | None => true end
  then Some {| code := normalize_code raw_code; name := raw_name;
               credit_hours := hours; grade := g; semester := sem;
               category := cat |}
  else None.

(** What validation guarantees of a [Course] object that a list passed to
    the core holds. *)
Definition Course_valid (c : Course) : Prop :=
  credit_hours_field (credit_hours c) = true.

(** [c.grade is not None]. *)
Definition is_graded (c : Course) : bool :=
  match grade c with Some _ => true | None => false end.

Record SemesterRecord : Type := {
  term : string;
  courses : list Course
}.

Record UserProfile : Type := {
  user_id : string;
  user_name : string;
  program : string;
  target_class : option string
}.

Record GPACalcResponse : Type := {
  gpa : Q;
  total_points : Q;
  total_credits : Q
}.

Record CGPAResponse : Type := {
  cgpa : Q;
  gpa_by_semester : list GPACalcResponse
}.

Record ProjectionResponse : Type := {
  proj_target_class : string;
  target_cgpa : Q;
  needed_avg_gpa : Q;
  message : string
}.

Record AdviceResponse : Type := {
  insights : list string;
  recommendations : list string;
  risk_courses : list string
}.

(** ** [main.py]: core GPA logic *)

Definition grade_to_points (grade : option string) : result (option Q) :=
  match grade with
  | None => Ok None
  | Some grade =>
      let g := Str.upper grade in
      match GRADE_POINTS !! g with
      | None => Err (InvalidGrade grade)
      | Some p => Ok (Some p)
      end
  end.

(** The local variables of the loop of [compute_gpa]. *)
Record gpa_state : Type := {
  st_points : Q;
  st_credits : Q;
  seen : gset string
}.

Definition gpa_init : gpa_state :=
  {| st_points := 0; st_credits := 0; seen := ∅ |}.

(** One iteration of [for c in courses]. *)
Definition gpa_step (st : gpa_state) (c : Course) : result gpa_state :=
  if decide (code c ∈ seen st) then Err (DuplicateCourse (code c))
  else
    let seen' := seen st ∪ {[ code c ]} in
    let skip := {| st_points := st_points st; st_credits := st_credits st;
                   seen := seen' |} in
    match grade c with
    | None => Ok skip
    | Some g =>
        let* pts := grade_to_points (Some (GradeLetter_str g)) in
        match pts with
        | None => Ok skip
        | Some pts =>
            if Num.leb (credit_hours c) 0 || Num.ltb 10 (credit_hours c)
            then Err (InvalidCreditHours (code c))
            else Ok {| st_points := st_points st + pts * credit_hours c;
                       st_credits := st_credits st + credit_hours c;
                       seen := seen' |}
        end
    end.

Fixpoint gpa_loop (cs : list Course) (st : gpa_state) : result gpa_state :=
  match cs with
  | [] => Ok st
  | c :: cs' => let* st' := gpa_step st c in gpa_loop cs' st'
  end.

(** The two statements after the loop. *)
Definition gpa_response (st : gpa_state) : GPACalcResponse :=
  let gpa :=
    if Num.ltb 0 (st_credits st)
    then Num.round3 (st_points st / st_credits st) else 0 in
  {| gpa := gpa;
     total_points := Num.round3 (st_points st);
     total_credits := Num.round3 (st_credits st) |}.

Definition compute_gpa (cs : list Course) : result GPACalcResponse :=
  let* st := gpa_loop cs gpa_init in
  Ok (gpa_response st).

(** The local variables of the loop of [compute_cgpa]. *)
Record cgpa_state : Type := {
  gpas : list GPACalcResponse;
  agg_points : Q;
  agg_credits : Q
}.

Fixpoint cgpa_loop (sems : list SemesterRecord) (st : cgpa_state)
  : result cgpa_state :=
  match sems with
  | [] => Ok st
  | sem :: sems' =>
      let* res := compute_gpa (courses sem) in
      cgpa_loop sems'
        {| gpas := gpas st ++ [res];
           agg_points := agg_points st + total_points res;
           agg_credits := agg_credits st + total_credits res |}
  end.

Definition compute_cgpa (sems : list SemesterRecord) : result CGPAResponse :=
  let* st := cgpa_loop sems {| gpas := []; agg_points := 0; agg_credits := 0 |} in
  let cgpa :=
    if Num.ltb 0 (agg_credits st)
    then Num.round3 (agg_points st / agg_credits st) else 0 in
  Ok {| cgpa := cgpa; gpa_by_semester := gpas st |}.

(** The loop of [classify_honors] over [bands.items()]. *)
Fixpoint classify_in (bands : list (string * Q)) (cgpa : Q) : string :=
  match bands with
  | [] => "Fail"
  | (label, threshold) :: bands' =>
      if Num.leb threshold cgpa then label else classify_in bands' cgpa
  end.

Definition classify_honors (cgpa : Q) : string := classify_in HONORS_BANDS cgpa.

(** [repr] of a float that is a multiple of 1/1000 of moderate size, as
    an f-string prints [needed_avg_gpa]: the integer part, a point, and the
    decimals without trailing zeros (at least one). *)
Definition repr_float (x : Q) : string :=
  let n := Num.round_half_even (x * 1000) in
  let a := Z.abs n in
  let d1 := (a `mod` 1000 / 100)%Z in
  let d2 := (a `mod` 100 / 10)%Z in
  let d3 := (a `mod` 10)%Z in
  (if (n <? 0)%Z then "-" else "")
  +:+ pretty (a / 1000)%Z +:+ "."
  +:+ pretty d1
  +:+ (if (d2 =? 0)%Z && (d3 =? 0)%Z then "" else pretty d2)
  +:+ (if (d3 =? 0)%Z then "" else pretty d3).

Definition msg_determined : string :=
  "No remaining credits. Your final classification is already determined.".

Definition msg_unreachable (target_class : string) : string :=
  "Even 4.0 average can't reach " +:+ target_class
  +:+ ". Aim for the highest possible and consult advisor.".

Definition msg_needed (needed_avg_gpa : Q) (target_class : string) : string :=
  "You need an average GPA of " +:+ repr_float needed_avg_gpa
  +:+ " across the remaining credits to achieve " +:+ target_class +:+ ".".

Definition project_needed_average (completed : list Course)
    (remaining_credits : Q) (target_class : string)
  : result ProjectionResponse :=
  if negb (Dict.mem target_class HONORS_BANDS) then Err UnknownTargetClass
  else
    let* current := compute_gpa completed in
    let completed_credits := total_credits current in
    let completed_points := total_points current in
    if Num.leb remaining_credits 0 then
      let* needed := Dict.getitem target_class HONORS_BANDS in
      Ok {| proj_target_class := target_class;
            target_cgpa := needed;
            needed_avg_gpa := 0;
            message := msg_determined |}
    else
      let* target_cgpa := Dict.getitem target_class HONORS_BANDS in
      let total_credits_final := completed_credits + remaining_credits in
      let required_points_remaining :=
        target_cgpa * total_credits_final - completed_points in
      let needed_avg_gpa :=
        Num.round3
          (Num.py_max 0
             (Num.py_min 4 (required_points_remaining / remaining_credits))) in
      let msg :=
        if Num.ltb 4 needed_avg_gpa then msg_unreachable target_class
        else msg_needed needed_avg_gpa target_class in
      Ok {| proj_target_class := target_class;
            target_cgpa := target_cgpa;
            needed_avg_gpa := needed_avg_gpa;
            message := msg |}.

(** ** [main.py]: heuristic advisor *)

Definition insight_declining : string :=
  "Recent semester GPA dropped significantly. Consider workload balance and support resources.".

Definition insight_improving : string :=
  "Great improvement in the latest semester. Keep leveraging what worked.".

Definition insight_weak_category (cat : string) : string :=
  "Performance is weaker in " +:+ cat
  +:+ "-related units. Prioritize foundational practice and clinics.".

(** The insights the comparison of [sem_gpas[-1]] with [sem_gpas[-2]]
    appends. *)
Definition trend_insights (sem_gpas : list Q) : list string :=
  match rev sem_gpas with
  | last :: prev :: _ =>
      if Num.ltb last (prev - (2 # 10)) then [insight_declining]
      else if Num.ltb (prev + (2 # 10)) last then [insight_improving]
      else []
  | _ => []
  end.

(** [d.setdefault(k, []).append(v)] on an insertion-ordered dictionary. *)
Fixpoint setdefault_append (k : string) (v : Q) (d : list (string * list Q))
  : list (string * list Q) :=
  match d with
  | [] => [(k, [v])]
  | (k', arr) :: d' =>
      if String.eqb k k' then (k', arr ++ [v]) :: d'
      else (k', arr) :: setdefault_append k v d'
  end.

(** The local variables of the scan for weak courses. *)
Record scan_state : Type := {
  scan_risk : list string;
  category_scores : list (string * list Q)
}.

Definition scan_course (st : scan_state) (c : Course) : result scan_state :=
  match grade c with
  | None => Ok st
  | Some g =>
      let* pts := grade_to_points (Some (GradeLetter_str g)) in
      let risk :=
        match pts with
        | Some p =>
            if Num.ltb p 2
            then scan_risk st ++ [code c +:+ " (" +:+ GradeLetter_str g +:+ ")"]
            else scan_risk st
        | None => scan_risk st
        end in
      let scores :=
        match category c with
        | Some cat =>
            if String.eqb cat "" then category_scores st
            else setdefault_append (Str.lower cat)
                   (match pts with Some p => p | None => 0 end)
                   (category_scores st)
        | None => category_scores st
        end in
      Ok {| scan_risk := risk; category_scores := scores |}
  end.

Fixpoint scan_courses (cs : list Course) (st : scan_state) : result scan_state :=
  match cs with
  | [] => Ok st
  | c :: cs' => let* st' := scan_course st c in scan_courses cs' st'
  end.

Fixpoint scan_semesters (sems : list SemesterRecord) (st : scan_state)
  : result scan_state :=
  match sems with
  | [] => Ok st
  | sem :: sems' =>
      let* st' := scan_courses (courses sem) st in scan_semesters sems' st'
  end.

Definition category_insights (scores : list (string * list Q)) : list string :=
  flat_map
    (fun '(cat, arr) =>
       match arr with
       | [] => []
       | _ =>
           if Num.ltb (Num.sum arr / inject_Z (Z.of_nat (length arr))) (23 # 10)
           then [insight_weak_category cat] else []
       end)
    scores.

(** [[c for s in semesters for c in s.courses if c.grade is not None]]. *)
Definition graded_courses (sems : list SemesterRecord) : list Course :=
  List.filter is_graded (flat_map courses sems).

Definition fixed_recommendations : list string :=
  [ "Adopt spaced repetition for theory-heavy units (25-30 minute intervals).";
    "Schedule weekly review blocks and use past papers for targeted practice.";
    "Form a small study group for challenging categories to explain concepts out loud.";
    "Meet course lecturers/TAs early for feedback on weak areas." ].

(** [[r.gpa for r in cgpa_info.gpa_by_semester if r.total_credits > 0]]. *)
Definition sem_gpas_of (cgpa_info : CGPAResponse) : list Q :=
  List.map gpa
    (List.filter (fun r => Num.ltb 0 (total_credits r))
       (gpa_by_semester cgpa_info)).

(** [profile.target_class or "Second Class Upper"]. *)
Definition advice_target (profile : UserProfile) : string :=
  match target_class profile with
  | Some t => if String.eqb t "" then "Second Class Upper" else t
  | None => "Second Class Upper"
  end.

Definition generate_advice (profile : UserProfile) (sems : list SemesterRecord)
  : result AdviceResponse :=
  let* cgpa_info := compute_cgpa sems in
  let sem_gpas := sem_gpas_of cgpa_info in
  let insights1 := trend_insights sem_gpas in
  let* scanned := scan_semesters sems {| scan_risk := []; category_scores := [] |} in
  let risk := scan_risk scanned in
  let insights2 := insights1 ++ category_insights (category_scores scanned) in
  let target := advice_target profile in
  let total_credits := Num.sum (List.map credit_hours (graded_courses sems)) in
  let remaining_estimate := Num.py_max 0 (180 - total_credits) in
  let* proj := project_needed_average (graded_courses sems) remaining_estimate target in
  let insights3 := insights2 ++ [message proj] in
  let recommendations1 :=
    match risk with
    | [] => []
    | _ =>
        [ "Focus on re-assessment of weak units: "
          +:+ Str.join ", " (take 5 risk)
          +:+ (if (5 <? length risk)%nat then "..." else "") ]
    end in
  Ok {| insights := insights3;
        recommendations := recommendations1 ++ fixed_recommendations;
        risk_courses := risk |}.

(** ** [main.py]: API endpoints *)

(** [api_gpa]: the [HTTPException] of [compute_gpa] is raised again. *)
Definition api_gpa (req_courses : list Course) : result GPACalcResponse :=
  compute_gpa req_courses.

(** The dictionary [api_cgpa] returns. *)
Record CGPAResult : Type := {
  res_cgpa : Q;
  res_gpa_by_semester : list GPACalcResponse;
  classification : string
}.

Definition api_cgpa (req_semesters : list SemesterRecord) : result CGPAResult :=
  let* data := compute_cgpa req_semesters in
  let classification := classify_honors (cgpa data) in
  Ok {| res_cgpa := cgpa data;
        res_gpa_by_semester := gpa_by_semester data;
        classification := classification |}.

Record ProjectionRequest : Type := {
  req_completed : list Course;
  req_remaining_credits : Q;
  req_target_class : string
}.

(** [ProjectionRequest(...)]: [remaining_credits] has the [Field]
    constraint [gt=0]; [None] stands for pydantic's [ValidationError]. *)
Definition ProjectionRequest_new (completed : list Course)
    (remaining_credits : Q) (target_class : string) : option ProjectionRequest :=
  if Num.ltb 0 remaining_credits
  then Some {| req_completed := completed;
               req_remaining_credits := remaining_credits;
               req_target_class := target_class |}
  else None.

Definition api_project (req : ProjectionRequest) : result ProjectionResponse :=
  project_needed_average (req_completed req) (req_remaining_credits req)
    (req_target_class req).

Definition api_advice (profile : UserProfile) (req_semesters : list SemesterRecord)
  : result AdviceResponse :=
  generate_advice profile req_semesters.

(** ** Helpers to write down concrete courses *)

Definition mk (c : string) (h : Q) (g : option GradeLetter) : Course :=
  {| code := c; name := c; credit_hours := h; grade := g;
     semester := None; category := None |}.

Definition mk_cat (c : string) (h : Q) (g : option GradeLetter) (cat : string)
  : Course :=
  {| code := c; name := c; credit_hours := h; grade := g;
     semester := None; category := Some cat |}.

(** ** Double-precision arithmetic *)

Module F64.

(** A Python [float]: an IEEE 754 binary64 value. *)
Definition t : Type := spec_float.

Definition prec : Z := 53.
Definition emax : Z := 1024.

Definition add : t -> t -> t := SFadd prec emax.
Definition sub : t -> t -> t := SFsub prec emax.
Definition mul : t -> t -> t := SFmul prec emax.
Definition div : t -> t -> t := SFdiv prec emax.

(** [x < y], [x <= y] and [x == y]; all false when a NaN is involved. *)
Definition ltb : t -> t -> bool := SFltb.
Definition leb : t -> t -> bool := SFleb.
Definition eqb : t -> t -> bool := SFeqb.

(** An integer as an unrounded mantissa with exponent 0; [s] is the sign
    given to zero. *)
Definition exact_Z (s : bool) (n : Z) : t :=
  match n with
  | Z0 => S754_zero s
  | Zpos p => S754_finite false p 0
  | Zneg p => S754_finite true p 0
  end.

(** [float(n)] for a Python [int]. *)
Definition of_Z (n : Z) : t := binary_normalize prec emax n 0 false.

(** The double a decimal literal denotes: the one nearest to [n / d]. *)
Definition dec (n : Z) (d : positive) : t :=
  div (exact_Z false n) (exact_Z false (Zpos d)).

Definition zero : t := S754_zero false.

(** The exact value of a finite double. *)
Definition to_Q (x : t) : Q :=
  match x with
  | S754_finite s m e =>
      ((if s then -1 else 1) * inject_Z (Zpos m) * Qpower 2 e)%Q
  | _ => 0%Q
  end.

(** [round(x, 3)] as CPython computes it: the exact value of [x] is
    rounded to three decimals, ties to even, and the double nearest to
    that decimal is returned; zeros, infinities and NaN are returned as
    they are. *)
Definition round3 (x : t) : t :=
  match x with
  | S754_finite s _ _ =>
      div (exact_Z s (Num.round_half_even (to_Q x * 1000)%Q)) (exact_Z false 1000)
  | _ => x
  end.

(** [min(a, b)] and [max(a, b)]. *)
Definition py_min (a b : t) : t := if ltb b a then b else a.
Definition py_max (a b : t) : t := if ltb a b then b else a.

(** [sum(xs)] on floats as CPython up to 3.11 computes it: from 0, left
    to right, each addition rounded.  (From 3.12 on, [sum] compensates
    the rounding errors of the additions.) *)
Definition sum (xs : list t) : t := fold_left add xs zero.

(** [repr] of a double that is a 3-decimal value of moderate size. *)
Definition repr (x : t) : string := repr_float (to_Q x).

End F64.

(** ** The core in double precision *)

Module Dbl.

Definition GRADE_POINTS : gmap string F64.t :=
  <["F" := F64.dec 0 1]> (<["E" := F64.dec 5 10]> (<["D" := F64.dec 1 1]>
    (<["C" := F64.dec 2 1]> (<["B" := F64.dec 3 1]> (<["A" := F64.dec 4 1]> ∅))))).

Definition HONORS_BANDS : list (string * F64.t) :=
  [ ("First Class Honors", F64.dec 370 100);
    ("Second Class Upper", F64.dec 330 100);
    ("Second Class Lower", F64.dec 270 100);
    ("Pass", F64.dec 200 100) ].

Record Course : Type := {
  code : string;
  name : string;
  credit_hours : F64.t;
  grade : option GradeLetter;
  semester : option Z;
  category : option string
}.

(** The [Field] constraint [gt=0, le=10] of [Course.credit_hours]. *)
Definition credit_hours_field (h : F64.t) : bool :=
  F64.ltb F64.zero h && F64.leb h (F64.dec 10 1).

Definition Course_valid (c : Course) : Prop :=
  credit_hours_field (credit_hours c) = true.

(** [c.grade is not None]. *)
Definition is_graded (c : Course) : bool :=
  match grade c with Some _ => true | None => false end.

Record SemesterRecord : Type := {
  term : string;
  courses : list Course
}.

Record GPACalcResponse : Type := {
  gpa : F64.t;
  total_points : F64.t;
  total_credits : F64.t
}.

Record CGPAResponse : Type := {
  cgpa : F64.t;
  gpa_by_semester : list GPACalcResponse
}.

Record ProjectionResponse : Type := {
  proj_target_class : string;
  target_cgpa : F64.t;
  needed_avg_gpa : F64.t;
  message : string
}.

Record AdviceResponse : Type := {
  insights : list string;
  recommendations : list string;
  risk_courses : list string
}.

Definition grade_to_points (grade : option string) : result (option F64.t) :=
  match grade with
  | None => Ok None
  | Some grade =>
      let g := Str.upper grade in
      match GRADE_POINTS !! g with
      | None => Err (InvalidGrade grade)
      | Some p => Ok (Some p)
      end
  end.

(** The local variables of the loop of [compute_gpa]. *)
Record gpa_state : Type := {
  st_points : F64.t;
  st_credits : F64.t;
  seen : gset string
}.

Definition gpa_init : gpa_state :=
  {| st_points := F64.zero; st_credits := F64.zero; seen := ∅ |}.

(** The test [c.credit_hours <= 0 or c.credit_hours > 10]. *)
Definition hours_rejected (h : F64.t) : bool :=
  F64.leb h F64.zero || F64.ltb (F64.dec 10 1) h.

(** One iteration of [for c in courses]. *)
Definition gpa_step (st : gpa_state) (c : Course) : result gpa_state :=
  if decide (code c ∈ seen st) then Err (DuplicateCourse (code c))
  else
    let seen' := seen st ∪ {[ code c ]} in
    let skip := {| st_points := st_points st; st_credits := st_credits st;
                   seen := seen' |} in
    match grade c with
    | None => Ok skip
    | Some g =>
        let* pts := grade_to_points (Some (GradeLetter_str g)) in
        match pts with
        | None => Ok skip
        | Some pts =>
            if hours_rejected (credit_hours c)
            then Err (InvalidCreditHours (code c))
            else Ok {| st_points := F64.add (st_points st) (F64.mul pts (credit_hours c));
                       st_credits := F64.add (st_credits st) (credit_hours c);
                       seen := seen' |}
        end
    end.

Fixpoint gpa_loop (cs : list Course) (st : gpa_state) : result gpa_state :=
  match cs with
  | [] => Ok st
  | c :: cs' => let* st' := gpa_step st c in gpa_loop cs' st'
  end.

(** The two statements after the loop. *)
Definition gpa_response (st : gpa_state) : GPACalcResponse :=
  let gpa :=
    if F64.ltb F64.zero (st_credits st)
    then F64.round3 (F64.div (st_points st) (st_credits st)) else F64.zero in
  {| gpa := gpa;
     total_points := F64.round3 (st_points st);
     total_credits := F64.round3 (st_credits st) |}.

Definition compute_gpa (cs : list Course) : result GPACalcResponse :=
  let* st := gpa_loop cs gpa_init in
  Ok (gpa_response st).

(** The local variables of the loop of [compute_cgpa]. *)
Record cgpa_state : Type := {
  gpas : list GPACalcResponse;
  agg_points : F64.t;
  agg_credits : F64.t
}.

Fixpoint cgpa_loop (sems : list SemesterRecord) (st : cgpa_state)
  : result cgpa_state :=
  match sems with
  | [] => Ok st
  | sem :: sems' =>
      let* res := compute_gpa (courses sem) in
      cgpa_loop sems'
        {| gpas := gpas st ++ [res];
           agg_points := F64.add (agg_points st) (total_points res);
           agg_credits := F64.add (agg_credits st) (total_credits res) |}
  end.

Definition compute_cgpa (sems : list SemesterRecord) : result CGPAResponse :=
  let* st := cgpa_loop sems
               {| gpas := []; agg_points := F64.zero; agg_credits := F64.zero |} in
  let cgpa :=
    if F64.ltb F64.zero (agg_credits st)
    then F64.round3 (F64.div (agg_points st) (agg_credits st)) else F64.zero in
  Ok {| cgpa := cgpa; gpa_by_semester := gpas st |}.

Definition msg_needed (needed_avg_gpa : F64.t) (target_class : string) : string :=
  "You need an average GPA of " +:+ F64.repr needed_avg_gpa
  +:+ " across the remaining credits to achieve " +:+ target_class +:+ ".".

Definition project_needed_average (completed : list Course)
    (remaining_credits : F64.t) (target_class : string)
  : result ProjectionResponse :=
  if negb (Dict.mem target_class HONORS_BANDS) then Err UnknownTargetClass
  else
    let* current := compute_gpa completed in
    let completed_credits := total_credits current in
    let completed_points := total_points current in
    if F64.leb remaining_credits F64.zero then
      let* needed := Dict.getitem target_class HONORS_BANDS in
      Ok {| proj_target_class := target_class;
            target_cgpa := needed;
            needed_avg_gpa := F64.zero;
            message := msg_determined |}
    else
      let* target_cgpa := Dict.getitem target_class HONORS_BANDS in
      let total_credits_final := F64.add completed_credits remaining_credits in
      let required_points_remaining :=
        F64.sub (F64.mul target_cgpa total_credits_final) completed_points in
      let needed_avg_gpa :=
        F64.round3
          (F64.py_max F64.zero
             (F64.py_min (F64.dec 4 1)
                (F64.div required_points_remaining remaining_credits))) in
      let msg :=
        if F64.ltb (F64.dec 4 1) needed_avg_gpa then msg_unreachable target_class
        else msg_needed needed_avg_gpa target_class in
      Ok {| proj_target_class := target_class;
            target_cgpa := target_cgpa;
            needed_avg_gpa := needed_avg_gpa;
            message := msg |}.

(** The test of the [if] and the test of the [elif] on the last two
    semester GPAs. *)
Definition dropped (prev last : F64.t) : bool :=
  F64.ltb last (F64.sub prev (F64.dec 2 10)).
Definition improved (prev last : F64.t) : bool :=
  F64.ltb (F64.add prev (F64.dec 2 10)) last.

(** The insights the comparison of [sem_gpas[-1]] with [sem_gpas[-2]]
    appends. *)
Definition trend_insights (sem_gpas : list F64.t) : list string :=
  match rev sem_gpas with
  | last :: prev :: _ =>
      if dropped prev last then [insight_declining]
      else if improved prev last then [insight_improving]
      else []
  | _ => []
  end.

(** [d.setdefault(k, []).append(v)] on an insertion-ordered dictionary. *)
Fixpoint setdefault_append (k : string) (v : F64.t) (d : list (string * list F64.t))
  : list (string * list F64.t) :=
  match d with
  | [] => [(k, [v])]
  | (k', arr) :: d' =>
      if String.eqb k k' then (k', arr ++ [v]) :: d'
      else (k', arr) :: setdefault_append k v d'
  end.

Record scan_state : Type := {
  scan_risk : list string;
  category_scores : list (string * list F64.t)
}.

Definition scan_course (st : scan_state) (c : Course) : result scan_state :=
  match grade c with
  | None => Ok st
  | Some g =>
      let* pts := grade_to_points (Some (GradeLetter_str g)) in
      let risk :=
        match pts with
        | Some p =>
            if F64.ltb p (F64.dec 2 1)
            then scan_risk st ++ [code c +:+ " (" +:+ GradeLetter_str g +:+ ")"]
            else scan_risk st
        | None => scan_risk st
        end in
      let scores :=
        match category c with
        | Some cat =>
            if String.eqb cat "" then category_scores st
            else setdefault_append (Str.lower cat)
                   (match pts with Some p => p | None => F64.zero end)
                   (category_scores st)
        | None => category_scores st
        end in
      Ok {| scan_risk := risk; category_scores := scores |}
  end.

Fixpoint scan_courses (cs : list Course) (st : scan_state) : result scan_state :=
  match cs with
  | [] => Ok st
  | c :: cs' => let* st' := scan_course st c in scan_courses cs' st'
  end.

Fixpoint scan_semesters (sems : list SemesterRecord) (st : scan_state)
  : result scan_state :=
  match sems with
  | [] => Ok st
  | sem :: sems' =>
      let* st' := scan_courses (courses sem) st in scan_semesters sems' st'
  end.

Definition category_insights (scores : list (string * list F64.t)) : list string :=
  flat_map
    (fun '(cat, arr) =>
       match arr with
       | [] => []
       | _ =>
           if F64.ltb (F64.div (F64.sum arr) (F64.of_Z (Z.of_nat (length arr))))
                (F64.dec 23 10)
           then [insight_weak_category cat] else []
       end)
    scores.

(** [[c for s in semesters for c in s.courses if c.grade is not None]]. *)
Definition graded_courses (sems : list SemesterRecord) : list Course :=
  List.filter is_graded (flat_map courses sems).

Definition generate_advice (profile : UserProfile) (sems : list SemesterRecord)
  : result AdviceResponse :=
  let* cgpa_info := compute_cgpa sems in
  let sem_gpas :=
    List.map gpa
      (List.filter (fun r => F64.ltb F64.zero (total_credits r))
         (gpa_by_semester cgpa_info)) in
  let insights1 := trend_insights sem_gpas in
  let* scanned := scan_semesters sems {| scan_risk := []; category_scores := [] |} in
  let risk := scan_risk scanned in
  let insights2 := insights1 ++ category_insights (category_scores scanned) in
  let target := advice_target profile in
  let total_credits := F64.sum (List.map credit_hours (graded_courses sems)) in
  let remaining_estimate :=
    F64.py_max F64.zero (F64.sub (F64.dec 180 1) total_credits) in
  let* proj := project_needed_average (graded_courses sems) remaining_estimate target in
  let insights3 := insights2 ++ [message proj] in
  let recommendations1 :=
    match risk with
    | [] => []
    | _ =>
        [ "Focus on re-assessment of weak units: "
          +:+ Str.join ", " (take 5 risk)
          +:+ (if (5 <? length risk)%nat then "..." else "") ]
    end in
  Ok {| insights := insights3;
        recommendations := recommendations1 ++ fixed_recommendations;
        risk_courses := risk |}.

(** Helpers to write down concrete courses; hours are given as a decimal
    [n / d]. *)
Definition mk (c : string) (n : Z) (d : positive) (g : option GradeLetter) : Course :=
  {| code := c; name := c; credit_hours := F64.dec n d; grade := g;
     semester := None; category := None |}.

Definition mk_cat (c : string) (n : Z) (d : positive) (g : option GradeLetter)
    (cat : string) : Course :=
  {| code := c; name := c; credit_hours := F64.dec n d; grade := g;
     semester := None; category := Some cat |}.

(** The value [GRADE_POINTS] gives a letter. *)
Definition points_of (g : GradeLetter) : F64.t :=
  match g with
  | A => F64.dec 4 1 | B => F64.dec 3 1 | C => F64.dec 2 1
  | D => F64.dec 1 1 | E => F64.dec 5 10 | F => F64.dec 0 1
  end.

(** The quality points of a graded course, as the loop computes them. *)
Definition course_points (c : Course) : F64.t :=
  match grade c with
  | Some g => F64.mul (points_of g) (credit_hours c)
  | None => F64.zero
  end.

(** The double of the 3-decimal value [k / 1000]: what [round(x, 3)]
    returns for a non-negative [x], and what the literal denotes. *)
Definition milli (k : Z) : F64.t := F64.dec k 1000.

(** The arithmetic mean of the per-semester GPAs, which the CGPA is not. *)
Definition mean_of_gpas (rs : list GPACalcResponse) : F64.t :=
  F64.div (F64.sum (List.map gpa rs)) (F64.of_Z (Z.of_nat (length rs))).


End Dbl.

(** ** Vocabulary of the properties *)

(** The value [GRADE_POINTS] gives a letter. *)
Definition points_of (g : GradeLetter) : Q :=
  match g with
  | A => 4 | B => 3 | C => 2 | D => 1 | E => 1 # 2 | F => 0
  end.

(** The quality points of a course: grade points times credit hours, and
    nothing for a course without a grade. *)
Definition course_points (c : Course) : Q :=
  match grade c with
  | Some g => points_of g * credit_hours c
  | None => 0
  end.

(** A graded course whose credit hours are outside (0, 10]. *)
Definition bad_hours (c : Course) : Prop :=
  is_graded c = true /\ (credit_hours c <= 0 \/ 10 < credit_hours c).

(** The same code carries a grade in two different semesters. *)
Definition cross_semester_retake (sems : list SemesterRecord) : Prop :=
  exists (i j : nat) (s1 s2 : SemesterRecord) (c1 c2 : Course),
    i <> j /\ sems !! i = Some s1 /\ sems !! j = Some s2 /\
    c1 ∈ courses s1 /\ c2 ∈ courses s2 /\
    is_graded c1 = true /\ is_graded c2 = true /\ code c1 = code c2.

(** Every course of the history satisfies the constraints of the schema. *)
Definition history_valid (sems : list SemesterRecord) : Prop :=
  Forall (fun s => Forall Course_valid (courses s)) sems.

Definition is_trend_insight (s : string) : bool :=
  String.eqb s insight_declining || String.eqb s insight_improving.

(** The position of a label in the order of merit: the bands of the table
    from the top, then ["Fail"]. *)
Fixpoint rank_in (bands : list (string * Q)) (label : string) : nat :=
  match bands with
  | [] => 0
  | (l, _) :: bands' => if String.eqb label l then 0 else S (rank_in bands' label)
  end.

Definition honors_rank (label : string) : nat := rank_in HONORS_BANDS label.

(** A graded course whose grade is worth less than 2 points. *)
Definition at_risk (c : Course) : bool :=
  match grade c with
  | Some g => Num.ltb (points_of g) 2
  | None => false
  end.

(** The label of a course in [risk_courses]: ["CODE (GRADE)"]. *)
Definition risk_label (c : Course) : string :=
  code c +:+ " (" +:+
  match grade c with Some g => GradeLetter_str g | None => "" end +:+ ")".

(** The key under which the advisor files a course: its category in lower
    case, when there is a grade and a non-empty category. *)
Definition category_key (c : Course) : option string :=
  match grade c, category c with
  | Some _, Some cat => if String.eqb cat "" then None else Some (Str.lower cat)
  | _, _ => None
  end.

(** The grade points of the courses filed under [k], in input order. *)
Definition category_points (k : string) (cs : list Course) : list Q :=
  List.map (fun c => match grade c with Some g => points_of g | None => 0 end)
    (List.filter
       (fun c => match category_key c with
                 | Some k' => String.eqb k k'
                 | None => false
                 end) cs).


(** A string of ASCII characters only: on these [len], [strip] and
    [upper] of Python are the functions of [Str]. *)
Fixpoint ascii_only (s : string) : bool :=
  match s with
  | EmptyString => true
  | String c s' => (N_of_ascii c <? 128)%N && ascii_only s'
  end.

(** The dictionary of category scores never holds a key twice, nor an
    empty list. *)
Definition scores_inv (d : list (string * list Q)) : Prop :=
  NoDup (List.map fst d) /\ Forall (fun e => snd e <> []) d.

(** * Checks on concrete inputs *)

(** Rounding, string helpers and float printing. *)

Example round3_3067 : Num.round3 (276 # 90) = 3067 # 1000.
Proof. reflexivity. Qed.

Example round3_tie_even : Num.round3 (1 # 16) = 62 # 1000.
Proof. reflexivity. Qed.

Example round3_tie_odd : Num.round3 (3 # 16) = 188 # 1000.
Proof. reflexivity. Qed.

Example round3_neg_tie : Num.round3 (- (1 # 16)) = (-62) # 1000.
Proof. reflexivity. Qed.

Example strip_upper_t1 : Str.upper (Str.strip " t1 ") = "T1".
Proof. reflexivity. Qed.

Example strip_inner : Str.strip "  a b	" = "a b".
Proof. reflexivity. Qed.

Example join_3 : Str.join ", " ["a"; "b"; "c"] = "a, b, c".
Proof. reflexivity. Qed.

Example repr_3067 : repr_float (3067 # 1000) = "3.067". Proof. reflexivity. Qed.

Example repr_4 : repr_float 4 = "4.0". Proof. reflexivity. Qed.

Example repr_05 : repr_float (1 # 2) = "0.5". Proof. reflexivity. Qed.

Example repr_306 : repr_float (306 # 100) = "3.06". Proof. reflexivity. Qed.

(** The requests of [selftest] and of [tests/test_api.py], run on the model. *)

Example test_gpa_basic :
  compute_gpa [mk "T1" 3 (Some A); mk "T2" 3 (Some B)]
  = Ok {| gpa := 3500 # 1000; total_points := 21000 # 1000;
          total_credits := 6000 # 1000 |}.
Proof. vm_compute. reflexivity. Qed.

Example test_duplicate_course_validation :
  compute_gpa [mk "DUP" 3 (Some A); mk "DUP" 3 (Some B)]
  = Err (DuplicateCourse "DUP").
Proof. vm_compute. reflexivity. Qed.

Example test_projection :
  project_needed_average [mk "TST101" 3 (Some A)] 9 "Second Class Upper"
  = Ok {| proj_target_class := "Second Class Upper";
          target_cgpa := 330 # 100;
          needed_avg_gpa := 3067 # 1000;
          message := "You need an average GPA of 3.067 across the remaining credits to achieve Second Class Upper." |}.
Proof. vm_compute. reflexivity. Qed.

Example test_advice :
  generate_advice
    {| user_id := "u1"; user_name := "User"; program := "SE"; target_class := None |}
    [ {| term := "S1"; courses := [mk_cat "MTH" 3 (Some C) "math"] |};
      {| term := "S2"; courses := [mk_cat "PRG" 3 (Some B) "programming"] |} ]
  = Ok {| insights :=
            [ insight_improving;
              insight_weak_category "math";
              "You need an average GPA of 3.328 across the remaining credits to achieve Second Class Upper." ];
          recommendations := fixed_recommendations;
          risk_courses := [] |}.
Proof. vm_compute. reflexivity. Qed.

(** Double-precision arithmetic: literals, rounding, sums and the
    comparisons of the trend test. *)

Example dbl_round3_quotient :
  F64.round3 (F64.div (F64.dec 1565 10) (F64.dec 40 1)) = Dbl.milli 3913.
Proof. vm_compute. reflexivity. Qed.

Example dbl_round3_small : F64.round3 (F64.dec 25 10000) = Dbl.milli 3.
Proof. vm_compute. reflexivity. Qed.

Example dbl_round3_tie_even : F64.round3 (F64.dec 625 10000) = Dbl.milli 62.
Proof. vm_compute. reflexivity. Qed.

Example dbl_product_37_9 :
  F64.ltb (F64.dec 333 10) (F64.mul (F64.dec 37 10) (F64.dec 9 1)) = true.
Proof. vm_compute. reflexivity. Qed.

Example dbl_add_02 :
  F64.ltb (F64.add (F64.dec 14 10) (F64.dec 2 10)) (F64.dec 16 10) = true.
Proof. vm_compute. reflexivity. Qed.

Example dbl_sum_below_180 :
  F64.ltb (F64.sum (repeat (F64.dec 812 100) 5 ++ repeat (F64.dec 82 10) 17))
    (F64.dec 180 1) = true.
Proof. vm_compute. reflexivity. Qed.

Example dbl_repr_3067 : F64.repr (Dbl.milli 3067) = "3.067".
Proof. vm_compute. reflexivity. Qed.

Example dbl_repr_0 : F64.repr F64.zero = "0.0".
Proof. vm_compute. reflexivity. Qed.

(** The requests of [selftest] and of [tests/test_api.py], run on the
    double-precision model. *)

Example dbl_test_gpa_basic :
  Dbl.compute_gpa [Dbl.mk "T1" 3 1 (Some A); Dbl.mk "T2" 3 1 (Some B)]
  = Ok {| Dbl.gpa := F64.dec 35 10; Dbl.total_points := F64.dec 21 1;
          Dbl.total_credits := F64.dec 6 1 |}.
Proof. vm_compute. reflexivity. Qed.

Example dbl_test_duplicate_course_validation :
  Dbl.compute_gpa [Dbl.mk "DUP" 3 1 (Some A); Dbl.mk "DUP" 3 1 (Some B)]
  = Err (DuplicateCourse "DUP").
Proof. vm_compute. reflexivity. Qed.

Example dbl_test_projection :
  Dbl.project_needed_average [Dbl.mk "TST101" 3 1 (Some A)] (F64.dec 9 1)
    "Second Class Upper"
  = Ok {| Dbl.proj_target_class := "Second Class Upper";
          Dbl.target_cgpa := F64.dec 33 10;
          Dbl.needed_avg_gpa := Dbl.milli 3067;
          Dbl.message := "You need an average GPA of 3.067 across the remaining credits to achieve Second Class Upper." |}.
Proof. vm_compute. reflexivity. Qed.

Example dbl_projection_first_class :
  Dbl.project_needed_average [Dbl.mk "X1" 1 1 (Some A)] (F64.dec 8 1)
    "First Class Honors"
  = Ok {| Dbl.proj_target_class := "First Class Honors";
          Dbl.target_cgpa := F64.dec 37 10;
          Dbl.needed_avg_gpa := Dbl.milli 3663;
          Dbl.message := "You need an average GPA of 3.663 across the remaining credits to achieve First Class Honors." |}.
Proof. vm_compute. reflexivity. Qed.

Example dbl_test_advice :
  Dbl.generate_advice
    {| user_id := "u1"; user_name := "User"; program := "SE"; target_class := None |}
    [ {| Dbl.term := "S1"; Dbl.courses := [Dbl.mk_cat "MTH" 3 1 (Some C) "math"] |};
      {| Dbl.term := "S2";
         Dbl.courses := [Dbl.mk_cat "PRG" 3 1 (Some B) "programming"] |} ]
  = Ok {| Dbl.insights :=
            [ insight_improving;
              insight_weak_category "math";
              "You need an average GPA of 3.328 across the remaining credits to achieve Second Class Upper." ];
          Dbl.recommendations := fixed_recommendations;
          Dbl.risk_courses := [] |}.
Proof. vm_compute. reflexivity. Qed.

(** Twenty-two graded courses whose hours add up to 180 in decimals and to
    less than 180 in doubles: the advisor asks for an average on the
    credits it believes are missing. *)
Example dbl_advice_at_180_credits :
  Dbl.generate_advice
    {| user_id := "u1"; user_name := "User"; program := "SE"; target_class := None |}
    [ {| Dbl.term := "S1";
         Dbl.courses :=
           List.map (fun i => Dbl.mk ("A" +:+ pretty i) 812 100 (Some A)) (seq 0 5)
           ++ List.map (fun i => Dbl.mk ("B" +:+ pretty i) 82 10 (Some A)) (seq 0 17) |} ]
  = Ok {| Dbl.insights :=
            [ "You need an average GPA of 0.0 across the remaining credits to achieve Second Class Upper." ];
          Dbl.recommendations := fixed_recommendations;
          Dbl.risk_courses := [] |}.
Proof. vm_compute. reflexivity. Qed.

(** * Properties *)

(** ** Numbers *)

Module NumFacts.
Import Num.

Lemma ltb_lt (x y : Q) : ltb x y = true <-> x < y.
Proof.
  unfold ltb. rewrite negb_true_iff, <- not_true_iff_false, Qle_bool_iff.
  split; [apply Qnot_le_lt | apply Qlt_not_le].
Qed.

Lemma ltb_ge (x y : Q) : ltb x y = false <-> y <= x.
Proof.
  unfold ltb. rewrite negb_false_iff. apply Qle_bool_iff.
Qed.

Lemma leb_le (x y : Q) : leb x y = true <-> x <= y.
Proof. apply Qle_bool_iff. Qed.

Lemma leb_gt (x y : Q) : leb x y = false <-> y < x.
Proof.
  unfold leb. rewrite <- not_true_iff_false, Qle_bool_iff.
  split; [apply Qnot_le_lt | apply Qlt_not_le].
Qed.

(** The clamp of [project_needed_average] stays within [[0, 4]]. *)
Lemma clamp_bounds (x : Q) : 0 <= py_max 0 (py_min 4 x) <= 4.
Proof.
  unfold py_max, py_min.
  destruct (ltb x 4) eqn:H4.
  - apply ltb_lt in H4. destruct (ltb 0 x) eqn:H0.
    + apply ltb_lt in H0. split; lra.
    + split; lra.
  - change (ltb 0 4) with true. cbn. split; lra.
Qed.

Lemma clamp_above (x : Q) : 4 < x -> py_max 0 (py_min 4 x) = 4.
Proof.
  intros H. unfold py_max, py_min.
  assert (ltb x 4 = false) as -> by (apply ltb_ge; lra).
  reflexivity.
Qed.

(** Rounding never passes an integer bound. *)
Lemma round_half_even_le (x : Q) (n : Z) :
  x <= inject_Z n -> (round_half_even x <= n)%Z.
Proof.
  intros Hx. unfold round_half_even.
  assert (Hf : (Qfloor x <= n)%Z).
  { rewrite <- (Qfloor_Z n). apply Qfloor_resp_le, Hx. }
  destruct (Z.eq_dec (Qfloor x) n) as [-> | Hne].
  - assert (Hc : Qcompare (x - inject_Z n) (1 # 2) = Lt).
    { apply (proj1 (Qlt_alt _ _)). lra. }
    rewrite Hc. lia.
  - destruct (Qcompare _ _); [destruct (Z.even _) | |]; lia.
Qed.

Lemma round_half_even_ge (x : Q) (n : Z) :
  inject_Z n <= x -> (n <= round_half_even x)%Z.
Proof.
  intros Hx. unfold round_half_even.
  assert (Hf : (n <= Qfloor x)%Z).
  { rewrite <- (Qfloor_Z n). apply Qfloor_resp_le, Hx. }
  destruct (Qcompare _ _); [destruct (Z.even _) | |]; lia.
Qed.

Lemma round3_le_4 (x : Q) : x <= 4 -> round3 x <= 4.
Proof.
  intros Hx. unfold round3.
  assert (H : (round_half_even (x * 1000) <= 4000)%Z).
  { apply round_half_even_le. change (inject_Z 4000) with (4 * 1000). lra. }
  unfold Qle. cbn. lia.
Qed.

Lemma round3_ge_0 (x : Q) : 0 <= x -> 0 <= round3 x.
Proof.
  intros Hx. unfold round3.
  assert (H : (0 <= round_half_even (x * 1000))%Z).
  { apply round_half_even_ge. change (inject_Z 0) with 0. lra. }
  unfold Qle. cbn. lia.
Qed.

Lemma round_half_even_comp (x y : Q) :
  x == y -> round_half_even x = round_half_even y.
Proof.
  intros Hxy. unfold round_half_even.
  rewrite (Qfloor_comp _ _ Hxy).
  assert (Hc : Qcompare (x - inject_Z (Qfloor y)) (1 # 2)
             = Qcompare (y - inject_Z (Qfloor y)) (1 # 2)).
  { apply Qcompare_comp; [rewrite Hxy|]; reflexivity. }
  rewrite Hc. reflexivity.
Qed.

Lemma round_half_even_Z (n : Z) : round_half_even (inject_Z n) = n.
Proof.
  unfold round_half_even. rewrite Qfloor_Z.
  assert (Hc : Qcompare (inject_Z n - inject_Z n) (1 # 2) = Lt).
  { apply (proj1 (Qlt_alt _ _)). lra. }
  rewrite Hc. reflexivity.
Qed.

End NumFacts.

(** ** The GPA engine *)

Section GpaFacts.
Import Num NumFacts.

Lemma grade_to_points_letter (g : GradeLetter) :
  grade_to_points (Some (GradeLetter_str g)) = Ok (Some (points_of g)).
Proof. destruct g; vm_compute; reflexivity. Qed.

(** The guard of [compute_gpa] is the negation of the schema's field
    constraint. *)
Lemma hours_guard (h : Q) :
  (leb h 0 || ltb 10 h) = negb (credit_hours_field h).
Proof.
  unfold credit_hours_field, leb, ltb.
  destruct (Qle_bool h 0), (Qle_bool h 10); reflexivity.
Qed.

Lemma hours_guard_true (h : Q) :
  (leb h 0 || ltb 10 h) = true <-> h <= 0 \/ 10 < h.
Proof. rewrite orb_true_iff, leb_le, ltb_lt. tauto. Qed.

Lemma gpa_step_duplicate (st : gpa_state) (c : Course) :
  code c ∈ seen st -> gpa_step st c = Err (DuplicateCourse (code c)).
Proof. intros H. unfold gpa_step. rewrite decide_True; done. Qed.

Lemma gpa_step_ungraded (st : gpa_state) (c : Course) :
  code c ∉ seen st -> grade c = None ->
  gpa_step st c =
    Ok {| st_points := st_points st; st_credits := st_credits st;
          seen := seen st ∪ {[ code c ]} |}.
Proof.
  intros H Hg. unfold gpa_step. rewrite decide_False by done.
  rewrite Hg. reflexivity.
Qed.

Lemma gpa_step_graded (st : gpa_state) (c : Course) (g : GradeLetter) :
  code c ∉ seen st -> grade c = Some g ->
  gpa_step st c =
    if leb (credit_hours c) 0 || ltb 10 (credit_hours c)
    then Err (InvalidCreditHours (code c))
    else Ok {| st_points := st_points st + points_of g * credit_hours c;
               st_credits := st_credits st + credit_hours c;
               seen := seen st ∪ {[ code c ]} |}.
Proof.
  intros H Hg. unfold gpa_step. rewrite decide_False by done.
  rewrite Hg, grade_to_points_letter. reflexivity.
Qed.

(** A step succeeds exactly on a fresh code with acceptable hours, and
    then adds the course's contribution. *)
Lemma gpa_step_ok (st : gpa_state) (c : Course) :
  code c ∉ seen st -> ~ bad_hours c ->
  gpa_step st c =
    Ok {| st_points :=
            if is_graded c then st_points st + course_points c
            else st_points st;
          st_credits :=
            if is_graded c then st_credits st + credit_hours c
            else st_credits st;
          seen := seen st ∪ {[ code c ]} |}.
Proof.
  intros H Hb. unfold bad_hours, is_graded, course_points in *.
  destruct (grade c) as [g|] eqn:Hg.
  - rewrite (gpa_step_graded st c g H Hg).
    destruct (leb _ 0 || ltb 10 _) eqn:Hh; [|reflexivity].
    apply hours_guard_true in Hh. tauto.
  - apply gpa_step_ungraded; done.
Qed.

Lemma gpa_loop_app (cs1 cs2 : list Course) (st : gpa_state) :
  gpa_loop (cs1 ++ cs2) st = let* st' := gpa_loop cs1 st in gpa_loop cs2 st'.
Proof.
  revert st. induction cs1 as [|c cs1 IH]; intros st; [reflexivity|].
  cbn. destruct (gpa_step st c); cbn; [apply IH | reflexivity].
Qed.

(** On distinct fresh codes and acceptable hours the loop runs to the
    end; it has then summed, left to right, the contributions of the
    graded courses and recorded every code. *)
Lemma gpa_loop_ok (cs : list Course) (st : gpa_state) :
  NoDup (List.map code cs) ->
  (forall c, c ∈ cs -> code c ∉ seen st) ->
  (forall c, c ∈ cs -> ~ bad_hours c) ->
  exists st',
    gpa_loop cs st = Ok st' /\
    st_points st' =
      fold_left Qplus (List.map course_points (List.filter is_graded cs))
        (st_points st) /\
    st_credits st' =
      fold_left Qplus (List.map credit_hours (List.filter is_graded cs))
        (st_credits st) /\
    (forall k, k ∈ seen st' <-> k ∈ seen st \/ k ∈ List.map code cs).
Proof.
  revert st. induction cs as [|c cs IH]; intros st Hnd Hfresh Hok.
  - exists st. cbn. repeat split; try done.
    + tauto.
    + intros [?|H]; [done | by apply elem_of_nil in H].
  - cbn in Hnd. apply NoDup_cons in Hnd as [Hc Hnd].
    cbn [gpa_loop]. rewrite gpa_step_ok; [| apply Hfresh; left | apply Hok; left].
    cbn [bind].
    set (st1 := {| st_points := _ |}).
    destruct (IH st1 Hnd) as (st' & Hrun & Hp & Hcr & Hseen).
    + intros c' Hc'. subst st1. cbn. rewrite elem_of_union, elem_of_singleton.
      intros [Hs | Heq].
      * eapply Hfresh; [right; exact Hc' | exact Hs].
      * apply Hc. rewrite <- Heq.
        apply list_elem_of_In, in_map, list_elem_of_In, Hc'.
    + intros c' Hc'. apply Hok. by right.
    + exists st'. split; [exact Hrun|]. subst st1. cbn in *.
      repeat split.
      * rewrite Hp. destruct (is_graded c); reflexivity.
      * rewrite Hcr. destruct (is_graded c); reflexivity.
      * intros Hk. apply Hseen in Hk. rewrite elem_of_union, elem_of_singleton in Hk.
        rewrite elem_of_cons. tauto.
      * intros Hk. apply Hseen. rewrite elem_of_union, elem_of_singleton.
        rewrite elem_of_cons in Hk. tauto.
Qed.

Lemma Course_valid_hours (c : Course) : Course_valid c -> ~ bad_hours c.
Proof.
  unfold Course_valid, bad_hours. intros Hv [_ Hb].
  apply hours_guard_true in Hb. rewrite hours_guard, Hv in Hb. done.
Qed.

Lemma bad_hours_dec (c : Course) : {bad_hours c} + {~ bad_hours c}.
Proof.
  unfold bad_hours.
  destruct (is_graded c); [| right; intros [? _]; done].
  destruct (leb (credit_hours c) 0 || ltb 10 (credit_hours c)) eqn:Hh.
  - left. split; [done | by apply hours_guard_true].
  - right. intros [_ Hb]. apply hours_guard_true in Hb. congruence.
Qed.

(** The two ways an iteration can fail. *)
Lemma gpa_step_err (st : gpa_state) (c : Course) (e : error) :
  gpa_step st c = Err e ->
  (e = DuplicateCourse (code c) /\ code c ∈ seen st) \/
  (e = InvalidCreditHours (code c) /\ (code c ∉ seen st) /\ bad_hours c).
Proof.
  intros He. destruct (decide (code c ∈ seen st)) as [Hin | Hnot].
  - rewrite gpa_step_duplicate in He by done. left. split; congruence.
  - right. destruct (bad_hours_dec c) as [Hb | Hb].
    + destruct Hb as [Hg Hb]. unfold is_graded in Hg.
      destruct (grade c) as [g|] eqn:Hgr; [|done].
      rewrite (gpa_step_graded st c g Hnot Hgr) in He.
      apply hours_guard_true in Hb as Hb'. rewrite Hb' in He.
      repeat split; try congruence. unfold is_graded. by rewrite Hgr.
    + rewrite gpa_step_ok in He by done. done.
Qed.

Lemma gpa_step_bad (st : gpa_state) (c : Course) :
  code c ∉ seen st -> bad_hours c ->
  gpa_step st c = Err (InvalidCreditHours (code c)).
Proof.
  intros Hnot [Hg Hb]. unfold is_graded in Hg.
  destruct (grade c) as [g|] eqn:Hgr; [|done].
  rewrite (gpa_step_graded st c g Hnot Hgr).
  apply hours_guard_true in Hb. by rewrite Hb.
Qed.

Lemma gpa_loop_err (cs : list Course) (st : gpa_state) (e : error) :
  gpa_loop cs st = Err e ->
  exists c, c ∈ cs /\
    (e = DuplicateCourse (code c) \/ (e = InvalidCreditHours (code c) /\ bad_hours c)).
Proof.
  revert st. induction cs as [|c cs IH]; intros st He; [done|].
  cbn in He. destruct (gpa_step st c) as [st'|e'] eqn:Hs; cbn in He.
  - destruct (IH _ He) as (c' & Hin & Hc'). exists c'. split; [by right | done].
  - injection He as <-. exists c. split; [by left|].
    destruct (gpa_step_err _ _ _ Hs) as [[-> _] | (-> & _ & Hb)]; tauto.
Qed.

(** The first course whose code was met before stops the loop. *)
Lemma gpa_loop_first_repeat (pre post : list Course) (c : Course) (st : gpa_state) :
  NoDup (List.map code pre) ->
  (forall c', c' ∈ pre -> code c' ∉ seen st) ->
  (forall c', c' ∈ pre -> ~ bad_hours c') ->
  code c ∈ seen st \/ code c ∈ List.map code pre ->
  gpa_loop (pre ++ c :: post) st = Err (DuplicateCourse (code c)).
Proof.
  intros Hnd Hfresh Hok Hc. rewrite gpa_loop_app.
  destruct (gpa_loop_ok pre st Hnd Hfresh Hok) as (st' & -> & _ & _ & Hseen).
  cbn. rewrite gpa_step_duplicate; [reflexivity | by apply Hseen].
Qed.

(** A list with a repeated element splits at its first repeat. *)
Lemma first_repeat_split {X Y : Type} `{EqDecision Y} (f : X -> Y) (l : list X) :
  ~ NoDup (List.map f l) ->
  exists pre x post,
    l = pre ++ x :: post /\ NoDup (List.map f pre) /\ f x ∈ List.map f pre.
Proof.
  induction l as [|x l IH] using rev_ind; intros Hnd.
  - exfalso. apply Hnd. constructor.
  - destruct (decide (NoDup (List.map f l))) as [Hl | Hl].
    + exists l, x, []. repeat split; try done.
      destruct (decide (f x ∈ List.map f l)) as [Hx | Hx]; [done|].
      exfalso. apply Hnd. rewrite map_app. cbn.
      apply NoDup_app. repeat split; try done.
      * intros y Hy Hy'. apply list_elem_of_singleton in Hy'. congruence.
      * apply NoDup_singleton.
    + destruct (IH Hl) as (pre & y & post & -> & Hpre & Hy).
      exists pre, y, (post ++ [x]). split; [|done].
      by rewrite <- app_assoc.
Qed.

Lemma compute_gpa_unfold (cs : list Course) :
  compute_gpa cs = let* st := gpa_loop cs gpa_init in Ok (gpa_response st).
Proof. reflexivity. Qed.

(** The result of the engine on a list it accepts. *)
Lemma compute_gpa_ok (cs : list Course) :
  NoDup (List.map code cs) ->
  (forall c, c ∈ cs -> ~ bad_hours c) ->
  let points := sum (List.map course_points (List.filter is_graded cs)) in
  let credits := sum (List.map credit_hours (List.filter is_graded cs)) in
  compute_gpa cs =
    Ok {| gpa := if ltb 0 credits then round3 (points / credits) else 0;
          total_points := round3 points;
          total_credits := round3 credits |}.
Proof.
  intros Hnd Hok points credits.
  destruct (gpa_loop_ok cs gpa_init Hnd) as (st & Hrun & Hp & Hc & _);
    [intros c _; cbn; apply not_elem_of_empty | done |].
  rewrite compute_gpa_unfold, Hrun. cbn [bind]. unfold gpa_response.
  rewrite Hp, Hc. reflexivity.
Qed.

Lemma compute_gpa_err (cs : list Course) (e : error) :
  compute_gpa cs = Err e ->
  exists c, c ∈ cs /\
    (e = DuplicateCourse (code c) \/ (e = InvalidCreditHours (code c) /\ bad_hours c)).
Proof.
  rewrite compute_gpa_unfold. destruct (gpa_loop cs gpa_init) eqn:Hl; [done|].
  cbn. intros [= <-]. by eapply gpa_loop_err.
Qed.

(** With a repeated code and acceptable hours the engine reports the
    first repeated code. *)
Lemma compute_gpa_duplicate (cs : list Course) :
  (forall c, c ∈ cs -> ~ bad_hours c) ->
  ~ NoDup (List.map code cs) ->
  exists pre c post,
    cs = pre ++ c :: post /\ NoDup (List.map code pre) /\
    code c ∈ List.map code pre /\
    compute_gpa cs = Err (DuplicateCourse (code c)).
Proof.
  intros Hok Hnd.
  destruct (first_repeat_split code cs Hnd) as (pre & c & post & -> & Hpre & Hc).
  exists pre, c, post. split; [reflexivity|]. split; [exact Hpre|].
  split; [exact Hc|].
  rewrite compute_gpa_unfold.
  rewrite (gpa_loop_first_repeat pre post c gpa_init Hpre);
    [reflexivity | | | by right].
  - intros c' _. cbn. apply not_elem_of_empty.
  - intros c' Hc'. apply Hok. apply elem_of_app. by left.
Qed.

Lemma first_match_split {X : Type} (P : X -> Prop)
    (P_dec : forall x, {P x} + {~ P x}) (l : list X) :
  (exists x, x ∈ l /\ P x) ->
  exists pre x post,
    l = pre ++ x :: post /\ (forall y, y ∈ pre -> ~ P y) /\ P x.
Proof.
  induction l as [|a l IH]; intros (x & Hin & Hx).
  - by apply elem_of_nil in Hin.
  - destruct (P_dec a) as [Ha | Ha].
    + exists [], a, l. repeat split; [|done].
      intros y Hy. by apply elem_of_nil in Hy.
    + apply elem_of_cons in Hin as [-> | Hin]; [done|].
      destruct IH as (pre & y & post & -> & Hpre & Hy); [by exists x|].
      exists (a :: pre), y, post. repeat split; [|done].
      intros z Hz. apply elem_of_cons in Hz as [-> | Hz]; [done | by apply Hpre].
Qed.

(** With distinct codes, the first graded course with unacceptable
    hours stops the loop. *)
Lemma compute_gpa_bad_hours (cs : list Course) :
  NoDup (List.map code cs) ->
  (exists c, c ∈ cs /\ bad_hours c) ->
  exists c, c ∈ cs /\ bad_hours c /\
    compute_gpa cs = Err (InvalidCreditHours (code c)).
Proof.
  intros Hnd Hex.
  destruct (first_match_split bad_hours bad_hours_dec cs Hex)
    as (pre & c & post & -> & Hpre & Hc).
  exists c. split; [apply elem_of_app; right; by left|]. split; [done|].
  rewrite map_app in Hnd. cbn in Hnd.
  apply NoDup_app in Hnd as (Hndpre & Hdisj & _).
  destruct (gpa_loop_ok pre gpa_init Hndpre) as (st & Hrun & _ & _ & Hseen);
    [intros c' _; cbn; apply not_elem_of_empty | done |].
  rewrite compute_gpa_unfold, gpa_loop_app, Hrun. cbn.
  rewrite gpa_step_bad; [reflexivity | | done].
  intros Hin. apply Hseen in Hin as [Hin | Hin].
  - by apply not_elem_of_empty in Hin.
  - apply (Hdisj _ Hin). by left.
Qed.

Lemma NoDup_map_filter {X Y : Type} (f : X -> Y) (p : X -> bool) (l : list X) :
  NoDup (List.map f l) -> NoDup (List.map f (List.filter p l)).
Proof.
  induction l as [|x l IH]; cbn; intros Hnd; [done|].
  apply NoDup_cons in Hnd as [Hx Hnd].
  destruct (p x); cbn; [|by apply IH].
  apply NoDup_cons. split; [|by apply IH].
  intros Hin. apply Hx.
  apply list_elem_of_In, in_map_iff in Hin as (y & Hy & Hin).
  apply filter_In in Hin as [Hin _].
  rewrite <- Hy. by apply list_elem_of_In, in_map.
Qed.

Lemma filter_idem {X : Type} (p : X -> bool) (l : list X) :
  List.filter p (List.filter p l) = List.filter p l.
Proof.
  induction l as [|x l IH]; cbn; [done|].
  destruct (p x) eqn:Hp; cbn; rewrite ?Hp, IH; done.
Qed.

End GpaFacts.

(** ** Claims about the GPA engine *)

Section GpaClaims.
Import Num NumFacts.

(** C8.  An iteration of [compute_gpa] that reaches a graded course (its
    code not met before) fails with [InvalidCreditHours] exactly when
    [credit_hours <= 0] or [credit_hours > 10].  Hence, over distinct
    codes, [compute_gpa] fails with [InvalidCreditHours] exactly when some
    graded course has such hours.  Ten credit hours are accepted, zero and
    10.0001 are rejected. *)
Theorem invalid_credit_hours_exactly :
  (forall (st : gpa_state) (c : Course),
      is_graded c = true -> code c ∉ seen st ->
      gpa_step st c = Err (InvalidCreditHours (code c)) <->
      (credit_hours c <= 0 \/ 10 < credit_hours c)) /\
  (forall cs : list Course,
      NoDup (List.map code cs) ->
      (exists k, compute_gpa cs = Err (InvalidCreditHours k)) <->
      (exists c, c ∈ cs /\ is_graded c = true /\
                 (credit_hours c <= 0 \/ 10 < credit_hours c))) /\
  (exists r, compute_gpa [mk "T1" 10 (Some A)] = Ok r) /\
  compute_gpa [mk "T1" 0 (Some A)] = Err (InvalidCreditHours "T1") /\
  compute_gpa [mk "T1" (100001 # 10000) (Some A)] = Err (InvalidCreditHours "T1").
Proof.
  split; [| split; [| split; [eexists; vm_compute; reflexivity
                             | split; vm_compute; reflexivity]]].
  - intros st c Hg Hfresh. split.
    + intros He. apply gpa_step_err in He as [[[=] _] | (_ & _ & [_ Hb])]. exact Hb.
    + intros Hb. apply gpa_step_bad; [done | by split].
  - intros cs Hnd. split.
    + intros [k He]. apply compute_gpa_err in He as (c & Hc & [He | [_ Hb]]);
        [discriminate|].
      exists c. split; [done | exact Hb].
    + intros (c & Hc & Hb).
      destruct (compute_gpa_bad_hours cs Hnd) as (c' & _ & _ & He).
      * exists c. split; [done | exact Hb].
      * by exists (code c').
Qed.

End GpaClaims.

Lemma invalid_credit_hours_exactly_witness :
  let cs := [mk "T1" 3 (Some A); mk "T2" 11 (Some B); mk "T3" 0 None] in
  exists k, compute_gpa cs = Err (InvalidCreditHours k).
Proof.
  intros cs.
  apply (proj1 (proj2 invalid_credit_hours_exactly) cs).
  - apply (bool_decide_unpack _). vm_compute. reflexivity.
  - exists (mk "T2" 11 (Some B)). split; [| split; [reflexivity|]].
    + apply list_elem_of_In. cbn. tauto.
    + right. reflexivity.
Defined.

(** ** The CGPA engine and the classifier *)

Section CgpaFacts.
Import Num NumFacts.

(** The loop of [compute_cgpa] appends the results of the semesters in
    order and adds up their totals from left to right. *)
Lemma cgpa_loop_ok (sems : list SemesterRecord) (results : list GPACalcResponse)
    (st : cgpa_state) :
  Forall2 (fun sem res => compute_gpa (courses sem) = Ok res) sems results ->
  cgpa_loop sems st =
    Ok {| gpas := gpas st ++ results;
          agg_points := fold_left Qplus (List.map total_points results) (agg_points st);
          agg_credits := fold_left Qplus (List.map total_credits results) (agg_credits st) |}.
Proof.
  intros H. revert st. induction H as [|sem res sems results Hres _ IH]; intros st.
  - cbn. rewrite app_nil_r. by destruct st.
  - cbn [cgpa_loop]. rewrite Hres. cbn [bind]. rewrite IH. cbn.
    by rewrite <- app_assoc.
Qed.

(** A failing semester makes the whole computation fail with its error. *)
Lemma cgpa_loop_err (sems : list SemesterRecord) (st : cgpa_state) (e : error) :
  cgpa_loop sems st = Err e ->
  exists sem, sem ∈ sems /\ compute_gpa (courses sem) = Err e.
Proof.
  revert st. induction sems as [|sem sems IH]; intros st He; [done|].
  cbn in He. destruct (compute_gpa (courses sem)) as [res|e'] eqn:Hres; cbn in He.
  - destruct (IH _ He) as (sem' & Hin & Hsem'). exists sem'. split; [by right | done].
  - injection He as <-. exists sem. split; [by left | done].
Qed.

Lemma cgpa_loop_results (sems : list SemesterRecord) (st st' : cgpa_state) :
  cgpa_loop sems st = Ok st' ->
  exists results,
    Forall2 (fun sem res => compute_gpa (courses sem) = Ok res) sems results.
Proof.
  revert st. induction sems as [|sem sems IH]; intros st Hrun.
  - exists []. constructor.
  - cbn in Hrun. destruct (compute_gpa (courses sem)) as [res|] eqn:Hres; [|done].
    cbn in Hrun. destruct (IH _ Hrun) as (results & Hall).
    exists (res :: results). by constructor.
Qed.

Lemma classify_in_first (bands : list (string * Q)) (x : Q) :
  (exists pre label threshold post,
      bands = pre ++ (label, threshold) :: post /\
      Forall (fun b => ~ snd b <= x) pre /\
      threshold <= x /\
      classify_in bands x = label) \/
  (Forall (fun b => ~ snd b <= x) bands /\ classify_in bands x = "Fail").
Proof.
  induction bands as [|[label threshold] bands IH].
  - right. split; [constructor | reflexivity].
  - cbn [classify_in]. destruct (leb threshold x) eqn:Hle.
    + left. exists [], label, threshold, bands.
      repeat split; [constructor | by apply leb_le].
    + assert (Hnot : ~ threshold <= x).
      { intros Hc. apply leb_le in Hc. congruence. }
      destruct IH as [(pre & l & t & post & -> & Hpre & Ht & Hc) | [Hall Hc]].
      * left. exists ((label, threshold) :: pre), l, t, post.
        repeat split; [by constructor | done | done].
      * right. split; [by constructor | done].
Qed.

End CgpaFacts.

Section CgpaClaims.
Import Num NumFacts.

Local Ltac decide_bands x :=
  repeat match goal with
    | |- context [leb ?t x] =>
        first [ rewrite (proj2 (leb_le t x)) by lra
              | rewrite (proj2 (leb_gt t x)) by lra ]
    end.

(** C4.  The classification table is in strictly descending order of
    threshold.  For every input [x], [classify_honors] returns the label
    of the first band whose threshold is at most [x], and ["Fail"] when
    no threshold is; being a total function, it returns a label for
    every input.  At a band's exact threshold (3.70 for instance) the
    result is that band. *)
Theorem classify_honors_first_band :
  StronglySorted (fun b1 b2 => snd b2 < snd b1) HONORS_BANDS /\
  (forall x : Q,
      (exists pre label threshold post,
          HONORS_BANDS = pre ++ (label, threshold) :: post /\
          Forall (fun b => ~ snd b <= x) pre /\
          threshold <= x /\
          classify_honors x = label) \/
      (Forall (fun b => ~ snd b <= x) HONORS_BANDS /\
       classify_honors x = "Fail")) /\
  (forall (label : string) (threshold x : Q),
      (label, threshold) ∈ HONORS_BANDS ->
      x == threshold ->
      classify_honors x = label) /\
  classify_honors (370 # 100) = "First Class Honors" /\
  classify_honors (369 # 100) = "Second Class Upper" /\
  classify_honors (-1) = "Fail" /\
  classify_honors 5 = "First Class Honors".
Proof.
  split; [| split; [| split; [| repeat split; reflexivity]]].
  - unfold HONORS_BANDS.
    repeat (constructor; [| repeat constructor; reflexivity]). constructor.
  - intros x. apply classify_in_first.
  - intros label threshold x Hin Hx. unfold HONORS_BANDS in Hin.
    repeat (apply elem_of_cons in Hin as [Hin | Hin];
            [injection Hin as -> ->;
             unfold classify_honors, HONORS_BANDS; cbn [classify_in];
             decide_bands x; reflexivity |]).
    by apply elem_of_nil in Hin.
Qed.

End CgpaClaims.

Lemma classify_honors_first_band_witness :
  classify_honors (3300 # 1000) = "Second Class Upper".
Proof.
  apply (proj1 (proj2 (proj2 classify_honors_first_band))
           "Second Class Upper" (330 # 100) (3300 # 1000)).
  - apply list_elem_of_In. cbn. tauto.
  - reflexivity.
Defined.

(** ** The projection engine *)

Section ProjectionFacts.
Import Num NumFacts.

Lemma map_is_fmap {X Y : Type} (f : X -> Y) (l : list X) :
  List.map f l = f <$> l.
Proof. reflexivity. Qed.

(** Two entries with one code at different positions. *)
Lemma same_code_not_NoDup (cs : list Course) (i j : nat) (c1 c2 : Course) :
  i <> j -> cs !! i = Some c1 -> cs !! j = Some c2 -> code c1 = code c2 ->
  ~ NoDup (List.map code cs).
Proof.
  intros Hij H1 H2 Hc Hnd. rewrite map_is_fmap in Hnd. apply Hij.
  apply (proj1 (NoDup_alt _) Hnd i j (code c1)).
  - by rewrite list_lookup_fmap, H1.
  - by rewrite list_lookup_fmap, H2, Hc.
Qed.

Lemma mem_get {V : Type} (k : string) (d : list (string * V)) :
  Dict.mem k d = true <-> exists v, Dict.get k d = Some v.
Proof.
  unfold Dict.mem. destruct (Dict.get k d) as [v|].
  - split; [by exists v | done].
  - split; [done | by intros [v ?]].
Qed.

(** Past the guard on the target, with the current totals in hand. *)
Lemma project_after_guard (completed : list Course) (remaining_credits : Q)
    (target_class : string) (threshold : Q) :
  Dict.get target_class HONORS_BANDS = Some threshold ->
  project_needed_average completed remaining_credits target_class =
    let* current := compute_gpa completed in
    if leb remaining_credits 0 then
      Ok {| proj_target_class := target_class; target_cgpa := threshold;
            needed_avg_gpa := 0; message := msg_determined |}
    else
      let needed :=
        round3 (py_max 0 (py_min 4
          ((threshold * (total_credits current + remaining_credits)
            - total_points current) / remaining_credits))) in
      Ok {| proj_target_class := target_class; target_cgpa := threshold;
            needed_avg_gpa := needed;
            message := if ltb 4 needed then msg_unreachable target_class
                       else msg_needed needed target_class |}.
Proof.
  intros Hget. unfold project_needed_average, Dict.mem, Dict.getitem.
  rewrite Hget. cbn [negb bind]. reflexivity.
Qed.

(** The comparison that selects the "unreachable" message is made on the
    clamped and rounded value, which never exceeds 4. *)
Lemma unreachable_test_false (x : Q) :
  ltb 4 (round3 (py_max 0 (py_min 4 x))) = false.
Proof. apply ltb_ge, round3_le_4, clamp_bounds. Qed.

Lemma msg_needed_not_unreachable (needed : Q) (target t : string) :
  msg_needed needed target <> msg_unreachable t.
Proof. unfold msg_needed, msg_unreachable. cbn [String.append]. discriminate. Qed.

(** No projection ever carries the "unreachable" message. *)
Lemma project_never_unreachable (completed : list Course) (remaining_credits : Q)
    (target_class : string) (r : ProjectionResponse) (t : string) :
  project_needed_average completed remaining_credits target_class = Ok r ->
  message r <> msg_unreachable t.
Proof.
  intros Hr.
  destruct (Dict.get target_class HONORS_BANDS) as [threshold|] eqn:Hget.
  - rewrite (project_after_guard _ _ _ _ Hget) in Hr.
    destruct (compute_gpa completed) as [current|]; [|done]. cbn in Hr.
    destruct (leb remaining_credits 0).
    + injection Hr as <-. cbn. unfold msg_determined, msg_unreachable.
      cbn [String.append]. discriminate.
    + rewrite unreachable_test_false in Hr. injection Hr as <-. cbn.
      apply msg_needed_not_unreachable.
  - unfold project_needed_average, Dict.mem in Hr. by rewrite Hget in Hr.
Qed.

End ProjectionFacts.

Section ProjectionClaims.
Import Num NumFacts.

(** C1, as the code behaves.  For a projection with a valid target,
    completed courses the GPA engine accepts and [remaining_credits > 0],
    whenever the unclamped required average [(T*(C+R) - P)/R] exceeds 4,
    [project_needed_average] returns [needed_avg_gpa] 4.0 together with
    the ordinary message "You need an average GPA of 4.0 ...": the
    "unreachable" message is not produced, since the test
    [needed_avg_gpa > 4.0] is made after the clamp. *)
Theorem projection_clamp_keeps_ordinary_message
    (completed : list Course) (remaining_credits : Q) (target_class : string)
    (threshold : Q) (current : GPACalcResponse) :
  Dict.get target_class HONORS_BANDS = Some threshold ->
  compute_gpa completed = Ok current ->
  0 < remaining_credits ->
  4 < (threshold * (total_credits current + remaining_credits)
       - total_points current) / remaining_credits ->
  exists r,
    project_needed_average completed remaining_credits target_class = Ok r /\
    needed_avg_gpa r == 4 /\
    message r =
      "You need an average GPA of 4.0 across the remaining credits to achieve "
      +:+ target_class +:+ "." /\
    forall t, message r <> msg_unreachable t.
Proof.
  intros Hget Hcur Hrem Hover.
  rewrite (project_after_guard _ _ _ _ Hget), Hcur. cbn [bind].
  assert (leb remaining_credits 0 = false) as -> by (by apply leb_gt).
  rewrite (clamp_above _ Hover).
  eexists. split; [reflexivity|]. cbn. repeat split.
  intros t. apply msg_needed_not_unreachable.
Qed.

(** C5.  For a valid target and a duplicate-free list of schema-valid
    completed courses, [remaining_credits <= 0] makes
    [project_needed_average] return the target's threshold as
    [target_cgpa], [needed_avg_gpa] 0.0 and the "already determined"
    message, whatever the completed courses are. *)
Theorem projection_early_exit
    (completed : list Course) (remaining_credits : Q) (target_class : string)
    (threshold : Q) :
  Dict.get target_class HONORS_BANDS = Some threshold ->
  NoDup (List.map code completed) ->
  Forall Course_valid completed ->
  remaining_credits <= 0 ->
  project_needed_average completed remaining_credits target_class =
    Ok {| proj_target_class := target_class;
          target_cgpa := threshold;
          needed_avg_gpa := 0;
          message := "No remaining credits. Your final classification is already determined." |}.
Proof.
  intros Hget Hnd Hval Hrem.
  rewrite (project_after_guard _ _ _ _ Hget).
  rewrite compute_gpa_ok; [| done |].
  - cbn [bind]. assert (leb remaining_credits 0 = true) as -> by (by apply leb_le).
    reflexivity.
  - intros c Hc. apply Course_valid_hours.
    rewrite Forall_forall in Hval. by apply Hval.
Qed.

(** C10.  When the completed list of schema-valid courses holds two
    entries with the same code and the target is a key of the table,
    [project_needed_average] fails with [DuplicateCourse], naming the
    first code that repeats, whatever the remaining credits are. *)
Theorem projection_rejects_duplicates
    (completed : list Course) (remaining_credits : Q) (target_class : string)
    (i j : nat) (c1 c2 : Course) :
  Dict.mem target_class HONORS_BANDS = true ->
  Forall Course_valid completed ->
  i <> j -> completed !! i = Some c1 -> completed !! j = Some c2 ->
  code c1 = code c2 ->
  exists pre c post,
    completed = pre ++ c :: post /\
    NoDup (List.map code pre) /\
    code c ∈ List.map code pre /\
    project_needed_average completed remaining_credits target_class
      = Err (DuplicateCourse (code c)).
Proof.
  intros Hmem Hval Hij H1 H2 Hcode.
  apply mem_get in Hmem as [threshold Hget].
  destruct (compute_gpa_duplicate completed) as (pre & c & post & Heq & Hpre & Hc & He).
  - intros c Hc. apply Course_valid_hours.
    rewrite Forall_forall in Hval. by apply Hval.
  - by eapply same_code_not_NoDup.
  - exists pre, c, post. repeat split; try done.
    rewrite (project_after_guard _ _ _ _ Hget), He. reflexivity.
Qed.

End ProjectionClaims.

Lemma projection_clamp_keeps_ordinary_message_witness :
  exists r,
    project_needed_average [mk "TST101" 3 (Some F)] 1 "First Class Honors" = Ok r /\
    needed_avg_gpa r == 4 /\
    message r =
      "You need an average GPA of 4.0 across the remaining credits to achieve First Class Honors." /\
    forall t, message r <> msg_unreachable t.
Proof.
  apply (projection_clamp_keeps_ordinary_message
           [mk "TST101" 3 (Some F)] 1 "First Class Honors" (370 # 100)
           {| gpa := 0 # 1000; total_points := 0 # 1000; total_credits := 3000 # 1000 |}).
  - reflexivity.
  - vm_compute. reflexivity.
  - reflexivity.
  - reflexivity.
Defined.

Lemma projection_early_exit_witness :
  project_needed_average [mk "TST101" 3 (Some F); mk "TST102" 4 None] 0 "Pass" =
    Ok {| proj_target_class := "Pass"; target_cgpa := 200 # 100;
          needed_avg_gpa := 0;
          message := "No remaining credits. Your final classification is already determined." |}.
Proof.
  apply projection_early_exit.
  - reflexivity.
  - apply (bool_decide_unpack _). vm_compute. reflexivity.
  - repeat constructor.
  - vm_compute. discriminate.
Defined.

Lemma projection_rejects_duplicates_witness :
  exists pre c post,
    [mk "MTH101" 3 (Some F); mk "PRG101" 3 None; mk "MTH101" 3 (Some B)]
      = pre ++ c :: post /\
    NoDup (List.map code pre) /\
    code c ∈ List.map code pre /\
    project_needed_average
      [mk "MTH101" 3 (Some F); mk "PRG101" 3 None; mk "MTH101" 3 (Some B)]
      9 "Second Class Upper"
      = Err (DuplicateCourse (code c)).
Proof.
  apply (projection_rejects_duplicates _ 9 "Second Class Upper" 0%nat 2%nat
           (mk "MTH101" 3 (Some F)) (mk "MTH101" 3 (Some B))).
  - reflexivity.
  - repeat constructor.
  - lia.
  - reflexivity.
  - reflexivity.
  - reflexivity.
Defined.

(** ** Code normalization *)

Module StrFacts.
Import Str.

Lemma append_cons (c : ascii) (s t : string) :
  String c s +:+ t = String c (s +:+ t).
Proof. reflexivity. Qed.

Lemma append_empty (t : string) : "" +:+ t = t.
Proof. reflexivity. Qed.

Local Ltac step :=
  rewrite ?append_cons, ?append_empty;
  cbn [all_space lstrip rstrip eq_nocase upper map andb].

Lemma lower_letter (a : ascii) :
  is_lower a = true ->
  is_space a = false /\ is_space (upper_char a) = false /\
  upper_char (upper_char a) = upper_char a.
Proof.
  destruct a as [[] [] [] [] [] [] [] []]; vm_compute; intros H;
    try discriminate H; repeat split.
Qed.

Lemma same_letter_cases (a b : ascii) :
  same_letter a b = true ->
  a = b \/ (is_lower a = true /\ b = upper_char a)
        \/ (is_lower b = true /\ a = upper_char b).
Proof.
  unfold same_letter. rewrite !orb_true_iff, !andb_true_iff, !Ascii.eqb_eq. tauto.
Qed.

Lemma same_letter_space (a b : ascii) :
  same_letter a b = true -> is_space a = is_space b.
Proof.
  intros H. destruct (same_letter_cases a b H) as [-> | [[Hl ->] | [Hl ->]]];
    [reflexivity | |]; destruct (lower_letter _ Hl) as (-> & -> & _); reflexivity.
Qed.

Lemma same_letter_upper (a b : ascii) :
  same_letter a b = true -> upper_char a = upper_char b.
Proof.
  intros H. destruct (same_letter_cases a b H) as [-> | [[Hl ->] | [Hl ->]]];
    [reflexivity | |]; destruct (lower_letter _ Hl) as (_ & _ & ->); reflexivity.
Qed.

Lemma lstrip_all_space (s : string) : all_space s = true -> lstrip s = "".
Proof.
  induction s as [|c s IH]; step; [done|].
  intros [Hc Hs]%andb_true_iff. rewrite Hc. by apply IH.
Qed.

Lemma rstrip_all_space (s : string) : all_space s = true -> rstrip s = "".
Proof.
  induction s as [|c s IH]; step; [done|].
  intros [Hc Hs]%andb_true_iff. rewrite (IH Hs), Hc. reflexivity.
Qed.

Lemma lstrip_padding (l s : string) :
  all_space l = true -> lstrip (l +:+ s) = lstrip s.
Proof.
  induction l as [|c l IH]; step; [done|].
  intros [Hc Hl]%andb_true_iff. rewrite Hc. by apply IH.
Qed.

Lemma rstrip_padding (s t : string) :
  all_space t = true -> rstrip (s +:+ t) = rstrip s.
Proof.
  intros Ht. induction s as [|c s IH]; step.
  - by apply rstrip_all_space.
  - by rewrite IH.
Qed.

(** Whitespace around a string does not change what [strip] returns. *)
Lemma strip_padding (l m t : string) :
  all_space l = true -> all_space t = true ->
  strip (l +:+ m +:+ t) = strip m.
Proof.
  intros Hl Ht. unfold strip. rewrite (lstrip_padding _ _ Hl).
  induction m as [|c m IH]; step.
  - by rewrite (lstrip_all_space _ Ht).
  - destruct (is_space c); [exact IH|].
    rewrite <- append_cons. by apply rstrip_padding.
Qed.

Lemma eq_nocase_lstrip (s t : string) :
  eq_nocase s t = true -> eq_nocase (lstrip s) (lstrip t) = true.
Proof.
  revert t. induction s as [|a s IH]; intros [|b t]; step; try done.
  intros [Hab Hst]%andb_true_iff.
  rewrite <- (same_letter_space _ _ Hab).
  destruct (is_space a); [by apply IH|].
  step. by rewrite Hab, Hst.
Qed.

Lemma eq_nocase_rstrip (s t : string) :
  eq_nocase s t = true -> eq_nocase (rstrip s) (rstrip t) = true.
Proof.
  revert t. induction s as [|a s IH]; intros [|b t]; step; try done.
  intros [Hab Hst]%andb_true_iff. specialize (IH _ Hst).
  rewrite <- (same_letter_space _ _ Hab).
  destruct (rstrip s), (rstrip t); try done.
  - destruct (is_space a); step; [done | by rewrite Hab].
  - step. rewrite Hab. exact IH.
Qed.

Lemma eq_nocase_upper (s t : string) :
  eq_nocase s t = true -> upper s = upper t.
Proof.
  revert t. unfold upper.
  induction s as [|a s IH]; intros [|b t]; step; try done.
  intros [Hab Hst]%andb_true_iff.
  by rewrite (same_letter_upper _ _ Hab), (IH _ Hst).
Qed.

End StrFacts.

Section NormalizationFacts.
Import Num NumFacts.

(** Raw codes that differ only in case and padding have one normal form. *)
Lemma normalize_code_invariant (r1 r2 : string) :
  Str.differ_only_in_case_or_padding r1 r2 ->
  normalize_code r1 = normalize_code r2.
Proof.
  intros (l1 & m1 & t1 & l2 & m2 & t2 & -> & -> & Hl1 & Ht1 & Hl2 & Ht2 & Hm).
  unfold normalize_code. rewrite !StrFacts.strip_padding by done.
  apply StrFacts.eq_nocase_upper. unfold Str.strip.
  by apply StrFacts.eq_nocase_rstrip, StrFacts.eq_nocase_lstrip.
Qed.

Lemma Course_new_spec (raw_code raw_name : string) (hours : Q)
    (g : option GradeLetter) (sem : option Z) (cat : option string) (c : Course) :
  Course_new raw_code raw_name hours g sem cat = Some c ->
  code c = normalize_code raw_code /\ Course_valid c.
Proof.
  unfold Course_new, Course_valid. destruct (_ && _) eqn:Hchecks; [|done].
  intros [= <-]. cbn. split; [reflexivity|].
  apply andb_true_iff in Hchecks as [Hchecks _].
  by apply andb_true_iff in Hchecks as [_ Hh].
Qed.

End NormalizationFacts.

Section NormalizationClaims.
Import Num NumFacts.

(** C6.  Let two courses be constructed from raw codes that differ only
    in letter case or in leading and trailing whitespace.  Both carry
    the same normalized code, and a GPA computation that holds the two
    fails with [DuplicateCourse]: naming that normalized code when the
    second of them is the first repeat of the list (in particular when
    the list is the pair itself), and naming the first repeated code of
    the list in general. *)
Theorem case_and_padding_variants_are_duplicates
    (r1 r2 n1 n2 : string) (h1 h2 : Q) (g1 g2 : option GradeLetter)
    (s1 s2 : option Z) (k1 k2 : option string) (c1 c2 : Course) :
  Str.differ_only_in_case_or_padding r1 r2 ->
  Course_new r1 n1 h1 g1 s1 k1 = Some c1 ->
  Course_new r2 n2 h2 g2 s2 k2 = Some c2 ->
  code c1 = normalize_code r1 /\
  code c2 = normalize_code r1 /\
  compute_gpa [c1; c2] = Err (DuplicateCourse (normalize_code r1)) /\
  (forall pre mid post : list Course,
      Forall Course_valid (pre ++ mid) ->
      NoDup (List.map code (pre ++ c1 :: mid)) ->
      compute_gpa (pre ++ c1 :: mid ++ c2 :: post)
        = Err (DuplicateCourse (normalize_code r1))) /\
  (forall (cs : list Course) (i j : nat),
      Forall Course_valid cs ->
      i <> j -> cs !! i = Some c1 -> cs !! j = Some c2 ->
      exists pre c post,
        cs = pre ++ c :: post /\ NoDup (List.map code pre) /\
        code c ∈ List.map code pre /\
        compute_gpa cs = Err (DuplicateCourse (code c))).
Proof.
  intros Hdiff Hc1 Hc2.
  apply Course_new_spec in Hc1 as [Hcode1 Hval1].
  apply Course_new_spec in Hc2 as [Hcode2 Hval2].
  rewrite <- (normalize_code_invariant _ _ Hdiff) in Hcode2.
  assert (Hgeneral : forall pre mid post : list Course,
      Forall Course_valid (pre ++ mid) ->
      NoDup (List.map code (pre ++ c1 :: mid)) ->
      compute_gpa (pre ++ c1 :: mid ++ c2 :: post)
        = Err (DuplicateCourse (normalize_code r1))).
  { intros pre mid post Hval Hnd.
    rewrite <- Hcode2, compute_gpa_unfold.
    change (pre ++ c1 :: mid ++ c2 :: post)
      with (pre ++ (c1 :: mid) ++ c2 :: post).
    rewrite app_assoc.
    rewrite (gpa_loop_first_repeat (pre ++ c1 :: mid) post c2 gpa_init Hnd);
      [reflexivity | | |].
    - intros c' _. cbn. apply not_elem_of_empty.
    - intros c' Hc'. apply Course_valid_hours.
      apply Forall_app in Hval as [Hpre Hmid].
      apply elem_of_app in Hc' as [Hc' | Hc'].
      + rewrite Forall_forall in Hpre. by apply Hpre.
      + apply elem_of_cons in Hc' as [-> | Hc']; [done|].
        rewrite Forall_forall in Hmid. by apply Hmid.
    - right. rewrite map_app. apply elem_of_app. right. cbn.
      rewrite Hcode2, <- Hcode1. by left. }
  split; [exact Hcode1|]. split; [exact Hcode2|]. split; [| split].
  - apply (Hgeneral [] [] []); [constructor|].
    cbn. apply NoDup_singleton.
  - exact Hgeneral.
  - intros cs i j Hval Hij Hi Hj.
    apply compute_gpa_duplicate.
    + intros c Hc. apply Course_valid_hours.
      rewrite Forall_forall in Hval. by apply Hval.
    + apply (same_code_not_NoDup cs i j c1 c2); try done. congruence.
Qed.

End NormalizationClaims.

Lemma case_and_padding_variants_are_duplicates_witness :
  let c1 := {| code := "T1"; name := "Test 1"; credit_hours := 3;
               grade := Some A; semester := None; category := None |} in
  let c2 := {| code := "T1"; name := "Test 1 again"; credit_hours := 3;
               grade := Some B; semester := None; category := None |} in
  Course_new " t1 " "Test 1" 3 (Some A) None None = Some c1 /\
  Course_new "T1" "Test 1 again" 3 (Some B) None None = Some c2 /\
  compute_gpa [c1; c2] = Err (DuplicateCourse "T1").
Proof.
  intros c1 c2. split; [reflexivity|]. split; [reflexivity|].
  apply (case_and_padding_variants_are_duplicates
           " t1 " "T1" "Test 1" "Test 1 again" 3 3 (Some A) (Some B)
           None None None None c1 c2).
  - exists " ", "t1", " ", "", "T1", "". repeat split.
  - reflexivity.
  - reflexivity.
Defined.

(** ** The advisor *)

Section AdviceFacts.
Import Num NumFacts.

Lemma scan_course_total (st : scan_state) (c : Course) :
  exists st', scan_course st c = Ok st'.
Proof.
  unfold scan_course. destruct (grade c) as [g|]; [| by eexists].
  rewrite grade_to_points_letter. cbn [bind]. by eexists.
Qed.

Lemma scan_courses_total (cs : list Course) (st : scan_state) :
  exists st', scan_courses cs st = Ok st'.
Proof.
  revert st. induction cs as [|c cs IH]; intros st; [by eexists|].
  cbn [scan_courses]. destruct (scan_course_total st c) as [st1 ->]. apply IH.
Qed.

(** The scan for weak courses never fails. *)
Lemma scan_semesters_total (sems : list SemesterRecord) (st : scan_state) :
  exists st', scan_semesters sems st = Ok st'.
Proof.
  revert st. induction sems as [|sem sems IH]; intros st; [by eexists|].
  cbn [scan_semesters].
  destruct (scan_courses_total (courses sem) st) as [st1 ->]. apply IH.
Qed.

Lemma graded_courses_cons (sem : SemesterRecord) (sems : list SemesterRecord) :
  graded_courses (sem :: sems) =
    List.filter is_graded (courses sem) ++ graded_courses sems.
Proof. unfold graded_courses. cbn. apply List.filter_app. Qed.

Lemma graded_courses_elem (sems : list SemesterRecord) (j : nat)
    (s : SemesterRecord) (c : Course) :
  sems !! j = Some s -> c ∈ courses s -> is_graded c = true ->
  c ∈ graded_courses sems.
Proof.
  revert j. induction sems as [|sem sems IH]; intros j Hj Hc Hg; [done|].
  rewrite graded_courses_cons. apply elem_of_app.
  destruct j as [|j]; cbn in Hj.
  - injection Hj as ->. left.
    apply list_elem_of_In, filter_In. split; [by apply list_elem_of_In | done].
  - right. by apply (IH j).
Qed.

Lemma code_elem (c : Course) (cs : list Course) :
  c ∈ cs -> code c ∈ List.map code cs.
Proof. intros H. by apply list_elem_of_In, in_map, list_elem_of_In. Qed.

(** A retake across semesters is a repeated code in the flattened list
    the advisor hands to the projection. *)
Lemma retake_not_NoDup (sems : list SemesterRecord) :
  cross_semester_retake sems -> ~ NoDup (List.map code (graded_courses sems)).
Proof.
  intros (i & j & s1 & s2 & c1 & c2 & Hij & Hi & Hj & Hc1 & Hc2 & Hg1 & Hg2 & Hcode).
  revert i j Hij Hi Hj.
  induction sems as [|sem sems IH]; intros i j Hij Hi Hj; [done|].
  rewrite graded_courses_cons, map_app. intros Hnd.
  apply NoDup_app in Hnd as (_ & Hdisj & Hrest).
  assert (Hhead : forall c, c ∈ courses sem -> is_graded c = true ->
                             code c ∈ List.map code (List.filter is_graded (courses sem))).
  { intros c Hc Hg. apply code_elem, list_elem_of_In, filter_In.
    split; [by apply list_elem_of_In | done]. }
  destruct i as [|i], j as [|j]; cbn in Hi, Hj; [done | | |].
  - injection Hi as ->. apply (Hdisj (code c1)); [by apply Hhead|].
    rewrite Hcode. by apply code_elem, (graded_courses_elem sems j s2).
  - injection Hj as ->. apply (Hdisj (code c2)); [by apply Hhead|].
    rewrite <- Hcode. by apply code_elem, (graded_courses_elem sems i s1).
  - apply (IH i j); [congruence | done | done | done].
Qed.

Lemma graded_courses_valid (sems : list SemesterRecord) (c : Course) :
  history_valid sems -> c ∈ graded_courses sems -> Course_valid c.
Proof.
  intros Hval Hc. unfold graded_courses in Hc.
  apply list_elem_of_In, filter_In in Hc as [Hc _].
  apply in_flat_map in Hc as (s & Hs & Hc).
  unfold history_valid in Hval. rewrite Forall_forall in Hval.
  specialize (Hval s (proj2 (list_elem_of_In _ _) Hs)).
  rewrite Forall_forall in Hval. by apply Hval, list_elem_of_In.
Qed.

(** On a schema-valid history the CGPA engine can only fail with
    [DuplicateCourse]. *)
Lemma compute_cgpa_err (sems : list SemesterRecord) (e : error) :
  history_valid sems -> compute_cgpa sems = Err e ->
  exists k, e = DuplicateCourse k.
Proof.
  intros Hval He. unfold compute_cgpa in He.
  destruct (cgpa_loop sems _) as [st|e'] eqn:Hloop; [done|].
  cbn in He. injection He as ->.
  apply cgpa_loop_err in Hloop as (sem & Hsem & Herr).
  apply compute_gpa_err in Herr as (c & Hc & [-> | [_ Hbad]]); [by eexists|].
  exfalso. revert Hbad. apply Course_valid_hours.
  unfold history_valid in Hval. rewrite Forall_forall in Hval.
  specialize (Hval sem Hsem). rewrite Forall_forall in Hval. by apply Hval.
Qed.

Lemma compute_cgpa_total (sems : list SemesterRecord) :
  history_valid sems ->
  Forall (fun s => NoDup (List.map code (courses s))) sems ->
  exists r, compute_cgpa sems = Ok r.
Proof.
  intros Hval Hnd.
  assert (Hres : exists results,
             Forall2 (fun sem res => compute_gpa (courses sem) = Ok res) sems results).
  { induction sems as [|sem sems IH]; [exists []; constructor|].
    apply Forall_cons in Hval as [Hv Hval]. apply Forall_cons in Hnd as [Hn Hnd].
    destruct (IH Hval Hnd) as [results Hall].
    eexists (_ :: results). constructor; [|exact Hall].
    apply compute_gpa_ok; [done|].
    intros c Hc. apply Course_valid_hours. rewrite Forall_forall in Hv. by apply Hv. }
  destruct Hres as [results Hall]. unfold compute_cgpa.
  rewrite (cgpa_loop_ok sems results _ Hall). by eexists.
Qed.

End AdviceFacts.

Section AdviceInsights.
Import Num NumFacts.

Lemma trend_insights_last_two (earlier : list Q) (prev last : Q) :
  trend_insights (earlier ++ [prev; last]) =
    if ltb last (prev - (2 # 10)) then [insight_declining]
    else if ltb (prev + (2 # 10)) last then [insight_improving]
    else [].
Proof. unfold trend_insights. rewrite rev_app_distr. reflexivity. Qed.

Lemma trend_insights_short (gs : list Q) :
  (length gs < 2)%nat -> trend_insights gs = [].
Proof.
  intros Hlen. destruct gs as [|g1 [|g2 gs]]; [reflexivity | reflexivity |].
  cbn in Hlen. lia.
Qed.

Lemma split_last_two {X : Type} (l : list X) :
  (length l < 2)%nat \/ exists earlier prev last, l = earlier ++ [prev; last].
Proof.
  destruct l as [|x l] using rev_ind; [left; cbn; lia|].
  destruct l as [|y l _] using rev_ind; [left; cbn; lia|].
  right. exists l, y, x. by rewrite <- app_assoc.
Qed.

Lemma trend_insights_all_trend (gs : list Q) :
  List.filter is_trend_insight (trend_insights gs) = trend_insights gs.
Proof.
  destruct (split_last_two gs) as [Hshort | (earlier & prev & last & ->)].
  - by rewrite trend_insights_short.
  - rewrite trend_insights_last_two.
    destruct (ltb last _); [reflexivity|]. destruct (ltb _ last); reflexivity.
Qed.

Lemma weak_category_not_trend (cat : string) :
  is_trend_insight (insight_weak_category cat) = false.
Proof. reflexivity. Qed.


End AdviceInsights.

Section AdviceClaims.
Import Num NumFacts.

(** C2, as amended.  Let the profile's target be absent, empty or a key
    of the classification table, and let the semester history be
    schema-valid with the same code carrying a grade in two different
    semesters.  Then [generate_advice] fails with [DuplicateCourse].
    When moreover no semester repeats a code within itself,
    [compute_cgpa] succeeds on that history, and the error of
    [generate_advice] names the first code that repeats in the flattened
    list of graded courses its projection step passes to [compute_gpa]. *)
Theorem advice_rejects_cross_semester_retake
    (profile : UserProfile) (sems : list SemesterRecord) :
  Dict.mem (advice_target profile) HONORS_BANDS = true ->
  history_valid sems ->
  cross_semester_retake sems ->
  (exists k, generate_advice profile sems = Err (DuplicateCourse k)) /\
  (Forall (fun s => NoDup (List.map code (courses s))) sems ->
   (exists r, compute_cgpa sems = Ok r) /\
   exists pre c post,
     graded_courses sems = pre ++ c :: post /\
     NoDup (List.map code pre) /\
     code c ∈ List.map code pre /\
     generate_advice profile sems = Err (DuplicateCourse (code c))).
Proof.
  intros Htarget Hval Hretake.
  apply mem_get in Htarget as [threshold Hget].
  destruct (compute_gpa_duplicate (graded_courses sems))
    as (pre & c & post & Heq & Hpre & Hc & Hdup).
  { intros c Hc. by apply Course_valid_hours, (graded_courses_valid sems). }
  { by apply retake_not_NoDup. }
  assert (Hadvice : forall cg, compute_cgpa sems = Ok cg ->
            generate_advice profile sems = Err (DuplicateCourse (code c))).
  { intros cg Hcg. unfold generate_advice. rewrite Hcg. cbn [bind].
    destruct (scan_semesters_total sems {| scan_risk := []; category_scores := [] |})
      as [scanned ->]. cbn [bind].
    rewrite (project_after_guard _ _ _ _ Hget), Hdup. reflexivity. }
  split.
  - destruct (compute_cgpa sems) as [cg|e] eqn:Hcg.
    + exists (code c). by apply (Hadvice cg).
    + destruct (compute_cgpa_err sems e Hval Hcg) as [k ->].
      exists k. unfold generate_advice. by rewrite Hcg.
  - intros Hsem. destruct (compute_cgpa_total sems Hval Hsem) as [cg Hcg].
    split; [by exists cg|].
    exists pre, c, post. repeat split; try done. by apply (Hadvice cg).
Qed.

End AdviceClaims.

Lemma advice_rejects_cross_semester_retake_witness :
  let profile := {| user_id := "u1"; user_name := "User"; program := "SE";
                    target_class := None |} in
  let sems := [ {| term := "S1"; courses := [mk_cat "MTH101" 3 (Some F) "math"] |};
                {| term := "S2"; courses := [mk_cat "MTH101" 3 (Some B) "math"] |} ] in
  (exists k, generate_advice profile sems = Err (DuplicateCourse k)) /\
  (exists r, compute_cgpa sems = Ok r).
Proof.
  intros profile sems.
  destruct (advice_rejects_cross_semester_retake profile sems) as [Hfail Hcgpa].
  - reflexivity.
  - repeat constructor.
  - exists 0%nat, 1%nat,
      {| term := "S1"; courses := [mk_cat "MTH101" 3 (Some F) "math"] |},
      {| term := "S2"; courses := [mk_cat "MTH101" 3 (Some B) "math"] |},
      (mk_cat "MTH101" 3 (Some F) "math"), (mk_cat "MTH101" 3 (Some B) "math").
    repeat split; try reflexivity; try lia; apply list_elem_of_In; cbn; tauto.
  - split; [exact Hfail|]. apply Hcgpa.
    repeat constructor; apply (bool_decide_unpack _); vm_compute; reflexivity.
Defined.

(** C2, as stated, fails: with a target that is not a key of the table the
    guard of [project_needed_average] fires before the duplicate check, and
    the error of [generate_advice] is "Unknown target_class". *)
Lemma advice_unknown_target_precedes_duplicate :
  ~ (forall (profile : UserProfile) (sems : list SemesterRecord),
        history_valid sems ->
        cross_semester_retake sems ->
        exists k, generate_advice profile sems = Err (DuplicateCourse k)).
Proof.
  intros H.
  destruct (H {| user_id := "u1"; user_name := "User"; program := "SE";
                 target_class := Some "Distinction" |}
              [ {| term := "S1"; courses := [mk "MTH101" 3 (Some F)] |};
                {| term := "S2"; courses := [mk "MTH101" 3 (Some B)] |} ])
    as [k Hk].
  - repeat constructor.
  - exists 0%nat, 1%nat,
      {| term := "S1"; courses := [mk "MTH101" 3 (Some F)] |},
      {| term := "S2"; courses := [mk "MTH101" 3 (Some B)] |},
      (mk "MTH101" 3 (Some F)), (mk "MTH101" 3 (Some B)).
    repeat split; try reflexivity; try lia; apply list_elem_of_In; cbn; tauto.
  - vm_compute in Hk. discriminate Hk.
Qed.

(** * Properties in double precision *)

(** ** The order on doubles *)

Module F64Facts.
Import F64.

Local Ltac order_cases :=
  unfold ltb, leb, SFltb, SFleb, SFcompare;
  intros;
  repeat match goal with
    | x : t |- _ => destruct x as [[]|[]| |[] ? ?]
    end;
  try discriminate; try reflexivity;
  repeat match goal with
    | H : context [Pos.compare_cont _ _ _] |- _ => rewrite Pos.compare_cont_spec in H
    | |- context [Pos.compare_cont _ _ _] => rewrite Pos.compare_cont_spec
    end;
  cbn [Pos.switch_Eq] in *;
  repeat match goal with
    | H : context [Z.compare ?a ?b] |- _ => destruct (Z.compare_spec a b)
    | |- context [Z.compare ?a ?b] => destruct (Z.compare_spec a b)
    | H : context [Pos.compare ?a ?b] |- _ => destruct (Pos.compare_spec a b)
    | |- context [Pos.compare ?a ?b] => destruct (Pos.compare_spec a b)
    end;
  cbn [CompOpp] in *;
  try discriminate; try reflexivity; try lia.

Lemma ltb_leb_false (x y : t) : ltb x y = true -> leb y x = false.
Proof. revert x y. order_cases. Qed.

Lemma leb_ltb_false (x y : t) : leb x y = true -> ltb y x = false.
Proof. revert x y. order_cases. Qed.





End F64Facts.

(** ** The GPA engine *)

Section DblGpaFacts.
Import Dbl.

Lemma dbl_grade_to_points_letter (g : GradeLetter) :
  grade_to_points (Some (GradeLetter_str g)) = Ok (Some (points_of g)).
Proof. destruct g; vm_compute; reflexivity. Qed.

(** Hours that satisfy the schema's constraint pass the guard of the loop. *)
Lemma dbl_hours_accepted (h : F64.t) :
  credit_hours_field h = true -> hours_rejected h = false.
Proof.
  unfold credit_hours_field, hours_rejected. intros [H0 H10]%andb_true_iff.
  by rewrite (F64Facts.ltb_leb_false _ _ H0), (F64Facts.leb_ltb_false _ _ H10).
Qed.

Lemma dbl_gpa_step_ok (st : gpa_state) (c : Course) :
  code c ∉ seen st ->
  (is_graded c = true -> hours_rejected (credit_hours c) = false) ->
  gpa_step st c =
    Ok {| st_points :=
            if is_graded c then F64.add (st_points st) (course_points c)
            else st_points st;
          st_credits :=
            if is_graded c then F64.add (st_credits st) (credit_hours c)
            else st_credits st;
          seen := seen st ∪ {[ code c ]} |}.
Proof.
  intros H Hh. unfold gpa_step. rewrite decide_False by done.
  unfold is_graded, course_points in *.
  destruct (grade c) as [g|] eqn:Hg; [|reflexivity].
  rewrite dbl_grade_to_points_letter. cbn [bind].
  by rewrite Hh.
Qed.

(** On distinct fresh codes and accepted hours the loop runs to the end,
    having added, left to right and in double precision, the
    contributions of the graded courses. *)
Lemma dbl_gpa_loop_ok (cs : list Course) (st : gpa_state) :
  NoDup (List.map code cs) ->
  (forall c, c ∈ cs -> code c ∉ seen st) ->
  (forall c, c ∈ cs -> is_graded c = true -> hours_rejected (credit_hours c) = false) ->
  exists st',
    gpa_loop cs st = Ok st' /\
    st_points st' =
      fold_left F64.add (List.map course_points (List.filter is_graded cs))
        (st_points st) /\
    st_credits st' =
      fold_left F64.add (List.map credit_hours (List.filter is_graded cs))
        (st_credits st).
Proof.
  revert st. induction cs as [|c cs IH]; intros st Hnd Hfresh Hok.
  - exists st. cbn. repeat split; done.
  - cbn in Hnd. apply NoDup_cons in Hnd as [Hc Hnd].
    cbn [gpa_loop]. rewrite dbl_gpa_step_ok; [| apply Hfresh; left | apply Hok; left].
    cbn [bind].
    set (st1 := {| st_points := _ |}).
    destruct (IH st1 Hnd) as (st' & Hrun & Hp & Hcr).
    + intros c' Hc'. subst st1. cbn. rewrite elem_of_union, elem_of_singleton.
      intros [Hs | Heq].
      * eapply Hfresh; [right; exact Hc' | exact Hs].
      * apply Hc. rewrite <- Heq.
        apply list_elem_of_In, in_map, list_elem_of_In, Hc'.
    + intros c' Hc'. apply Hok. by right.
    + exists st'. split; [exact Hrun|]. subst st1. cbn [st_points st_credits] in *.
      cbn [List.filter]. split.
      * rewrite Hp. destruct (is_graded c); reflexivity.
      * rewrite Hcr. destruct (is_graded c); reflexivity.
Qed.

(** The result of the engine on a list it accepts. *)
Lemma dbl_compute_gpa_ok (cs : list Course) :
  NoDup (List.map code cs) ->
  (forall c, c ∈ cs -> is_graded c = true -> hours_rejected (credit_hours c) = false) ->
  let points := F64.sum (List.map course_points (List.filter is_graded cs)) in
  let credits := F64.sum (List.map credit_hours (List.filter is_graded cs)) in
  compute_gpa cs =
    Ok {| gpa := if F64.ltb F64.zero credits
                 then F64.round3 (F64.div points credits) else F64.zero;
          total_points := F64.round3 points;
          total_credits := F64.round3 credits |}.
Proof.
  intros Hnd Hok points credits.
  destruct (dbl_gpa_loop_ok cs gpa_init Hnd) as (st & Hrun & Hp & Hc);
    [intros c _; cbn; apply not_elem_of_empty | done |].
  unfold compute_gpa. rewrite Hrun. cbn [bind]. unfold gpa_response.
  rewrite Hp, Hc. reflexivity.
Qed.

Lemma dbl_gpa_step_err (st : gpa_state) (c : Course) (e : error) :
  gpa_step st c = Err e ->
  e = DuplicateCourse (code c) \/ e = InvalidCreditHours (code c).
Proof.
  unfold gpa_step. destruct (decide _); [intros [= <-]; by left|].
  destruct (grade c) as [g|]; [|done].
  rewrite dbl_grade_to_points_letter. cbn [bind].
  destruct (hours_rejected _); [intros [= <-]; by right | done].
Qed.

Lemma dbl_gpa_loop_err (cs : list Course) (st : gpa_state) (e : error) :
  gpa_loop cs st = Err e ->
  exists k, e = DuplicateCourse k \/ e = InvalidCreditHours k.
Proof.
  revert st. induction cs as [|c cs IH]; intros st He; [done|].
  cbn [gpa_loop] in He. destruct (gpa_step st c) as [st'|e'] eqn:Hs; cbn [bind] in He.
  - by apply (IH st').
  - injection He as <-. exists (code c). by apply (dbl_gpa_step_err st).
Qed.

Lemma dbl_compute_gpa_err (cs : list Course) (e : error) :
  compute_gpa cs = Err e ->
  exists k, e = DuplicateCourse k \/ e = InvalidCreditHours k.
Proof.
  unfold compute_gpa. destruct (gpa_loop cs gpa_init) eqn:Hl; [done|].
  cbn. intros [= <-]. by eapply dbl_gpa_loop_err.
Qed.

Lemma dbl_valid_accepted (cs : list Course) :
  Forall Course_valid cs ->
  forall c, c ∈ cs -> is_graded c = true -> hours_rejected (credit_hours c) = false.
Proof.
  intros Hval c Hc _. apply dbl_hours_accepted.
  rewrite Forall_forall in Hval. by apply Hval.
Qed.

End DblGpaFacts.

Section DblGpaClaims.
Import Dbl.

(** C7, as amended.  For a course list with pairwise distinct codes and
    schema-valid credit hours, [compute_gpa] succeeds; its [total_credits]
    is the sum of the credit hours of the graded courses only, added in
    double precision in list order and then rounded to three decimals as
    [round] does, and its [total_points] is the rounded sum of their
    quality points.  Courses without a grade contribute nothing: dropping
    them leaves the result unchanged.  No course list at all makes
    [compute_gpa] fail with [InvalidGrade].  One graded course of 0.0025
    credit hours gives [total_credits] 0.003; three courses of 3, 4
    (ungraded) and 1.5 hours give 4.5 credits and 16.5 points. *)
Theorem gpa_totals_over_graded_courses :
  (forall cs : list Course,
      NoDup (List.map code cs) ->
      Forall Course_valid cs ->
      let graded := List.filter is_graded cs in
      exists r,
        compute_gpa cs = Ok r /\
        total_credits r = F64.round3 (F64.sum (List.map credit_hours graded)) /\
        total_points r = F64.round3 (F64.sum (List.map course_points graded)) /\
        compute_gpa graded = Ok r) /\
  (forall (cs : list Course) (g : string), compute_gpa cs <> Err (InvalidGrade g)) /\
  compute_gpa [mk "T1" 25 10000 (Some A)] =
    Ok {| gpa := milli 4000; total_points := milli 10; total_credits := milli 3 |} /\
  compute_gpa [mk "T1" 3 1 (Some A); mk "T2" 4 1 None; mk "T3" 15 10 (Some B)] =
    Ok {| gpa := milli 3667; total_points := milli 16500;
          total_credits := milli 4500 |}.
Proof.
  split; [| split; [| split; vm_compute; reflexivity]].
  - intros cs Hnd Hval graded.
    pose proof (dbl_valid_accepted cs Hval) as Hok.
    eexists. split; [apply dbl_compute_gpa_ok; done|]. cbn [total_credits total_points].
    split; [reflexivity|]. split; [reflexivity|].
    subst graded. rewrite dbl_compute_gpa_ok.
    + rewrite filter_idem. reflexivity.
    + by apply NoDup_map_filter.
    + intros c Hc. apply Hok.
      apply list_elem_of_In, filter_In in Hc as [Hc _]. by apply list_elem_of_In.
  - intros cs g He. apply dbl_compute_gpa_err in He as (k & [He | He]); discriminate.
Qed.

End DblGpaClaims.

Lemma gpa_totals_over_graded_courses_witness :
  let cs := [Dbl.mk "T1" 3 1 (Some A); Dbl.mk "T2" 4 1 None; Dbl.mk "T3" 15 10 (Some B)] in
  exists r,
    Dbl.compute_gpa cs = Ok r /\
    Dbl.total_credits r = Dbl.milli 4500 /\
    Dbl.total_points r = Dbl.milli 16500.
Proof.
  intros cs.
  destruct (proj1 gpa_totals_over_graded_courses cs) as (r & Hr & Hc & Hp & _).
  - apply (bool_decide_unpack _). vm_compute. reflexivity.
  - repeat (constructor; [vm_compute; reflexivity|]). constructor.
  - exists r. split; [exact Hr|].
    split; [rewrite Hc | rewrite Hp]; vm_compute; reflexivity.
Defined.

(** C7, as stated, fails: one graded course of 2.0004 credit hours has
    [total_credits] 2.0, which is not the sum 2.0004 of the credit hours. *)
Lemma total_credits_not_exact_sum :
  ~ (forall cs : list Dbl.Course,
        NoDup (List.map Dbl.code cs) ->
        Forall Dbl.Course_valid cs ->
        exists r,
          Dbl.compute_gpa cs = Ok r /\
          F64.eqb (Dbl.total_credits r)
            (F64.sum (List.map Dbl.credit_hours (List.filter Dbl.is_graded cs)))
          = true).
Proof.
  intros H.
  destruct (H [Dbl.mk "T1" 20004 10000 (Some A)]) as (r & Hr & Hc).
  - apply (bool_decide_unpack _). vm_compute. reflexivity.
  - constructor; [vm_compute; reflexivity | constructor].
  - vm_compute in Hr. injection Hr as <-. vm_compute in Hc. discriminate.
Qed.

(** ** The CGPA engine *)

Section DblCgpaFacts.
Import Dbl.

(** The loop of [compute_cgpa] appends the results of the semesters in
    order and adds up their totals from left to right. *)
Lemma dbl_cgpa_loop_ok (sems : list SemesterRecord) (results : list GPACalcResponse)
    (st : cgpa_state) :
  Forall2 (fun sem res => compute_gpa (courses sem) = Ok res) sems results ->
  cgpa_loop sems st =
    Ok {| gpas := gpas st ++ results;
          agg_points := fold_left F64.add (List.map total_points results) (agg_points st);
          agg_credits := fold_left F64.add (List.map total_credits results) (agg_credits st) |}.
Proof.
  intros H. revert st. induction H as [|sem res sems results Hres _ IH]; intros st.
  - cbn. rewrite app_nil_r. by destruct st.
  - cbn [cgpa_loop]. rewrite Hres. cbn [bind]. rewrite IH.
    cbn [gpas agg_points agg_credits List.map fold_left].
    by rewrite <- app_assoc.
Qed.

End DblCgpaFacts.

Section DblCgpaClaims.
Import Dbl.

(** C3.  When every semester passes the GPA engine, [compute_cgpa]
    returns the per-semester results in order and a [cgpa] that is the
    3-decimal rounding, as [round] computes it on doubles, of the sum of
    the semesters' [total_points] divided by the sum of their
    [total_credits], and 0.0 when the summed credits are not positive.
    The semesters [(A,3,A)] and [(B,3,B)] give 3.5.  The figure is
    credit-weighted: on a 3-credit A followed by a 1-credit C it is 3.5
    while the mean of the two GPAs is 3.0.  On 156.5 points over 40
    credits it is 3.913. *)
Theorem cgpa_is_credit_weighted :
  (forall (sems : list SemesterRecord) (results : list GPACalcResponse),
      Forall2 (fun sem res => compute_gpa (courses sem) = Ok res) sems results ->
      let points := F64.sum (List.map total_points results) in
      let credits := F64.sum (List.map total_credits results) in
      compute_cgpa sems =
        Ok {| cgpa := if F64.ltb F64.zero credits
                      then F64.round3 (F64.div points credits) else F64.zero;
              gpa_by_semester := results |}) /\
  (exists r,
      compute_cgpa [ {| term := "S1"; courses := [mk "A" 3 1 (Some A)] |};
                     {| term := "S2"; courses := [mk "B" 3 1 (Some B)] |} ] = Ok r /\
      cgpa r = F64.dec 35 10) /\
  (exists r,
      compute_cgpa [ {| term := "S1"; courses := [mk "A" 3 1 (Some A)] |};
                     {| term := "S2"; courses := [mk "B" 1 1 (Some C)] |} ] = Ok r /\
      cgpa r = F64.dec 35 10 /\
      mean_of_gpas (gpa_by_semester r) = F64.dec 3 1) /\
  (exists r,
      compute_cgpa
        [ {| term := "S1";
             courses := [mk "A1" 10 1 (Some A); mk "A2" 10 1 (Some A)] |};
          {| term := "S2";
             courses := [mk "B1" 10 1 (Some A); mk "B2" 9 1 (Some A);
                         mk "B3" 1 1 (Some E)] |} ] = Ok r /\
      List.map total_points (gpa_by_semester r) = [F64.dec 80 1; F64.dec 765 10] /\
      List.map total_credits (gpa_by_semester r) = [F64.dec 20 1; F64.dec 20 1] /\
      cgpa r = milli 3913).
Proof.
  split; [| split; [| split]].
  - intros sems results Hall points credits.
    unfold compute_cgpa. rewrite (dbl_cgpa_loop_ok sems results _ Hall).
    reflexivity.
  - eexists. split; [vm_compute; reflexivity | vm_compute; reflexivity].
  - eexists. split; [vm_compute; reflexivity | split; vm_compute; reflexivity].
  - eexists. split; [vm_compute; reflexivity | repeat split; vm_compute; reflexivity].
Qed.

End DblCgpaClaims.

Lemma cgpa_is_credit_weighted_witness :
  let sems := [ {| Dbl.term := "S1"; Dbl.courses := [Dbl.mk "A" 3 1 (Some A)] |};
                {| Dbl.term := "S2"; Dbl.courses := [Dbl.mk "B" 3 1 (Some B)] |} ] in
  exists r, Dbl.compute_cgpa sems = Ok r /\ Dbl.cgpa r = Dbl.milli 3500.
Proof.
  intros sems. eexists. split.
  - apply (proj1 cgpa_is_credit_weighted sems
             [ {| Dbl.gpa := Dbl.milli 4000; Dbl.total_points := Dbl.milli 12000;
                  Dbl.total_credits := Dbl.milli 3000 |};
               {| Dbl.gpa := Dbl.milli 3000; Dbl.total_points := Dbl.milli 9000;
                  Dbl.total_credits := Dbl.milli 3000 |} ]).
    repeat (constructor; [vm_compute; reflexivity|]). constructor.
  - vm_compute. reflexivity.
Defined.

(** ** The projection engine *)

Section DblProjectionFacts.
Import Dbl.






End DblProjectionFacts.

(** ** The advisor *)

Section DblAdviceFacts.
Import Dbl.











End DblAdviceFacts.

Section DblAdviceClaims.
Import Dbl.


End DblAdviceClaims.


(** * Further properties of the code *)

(** ** Grades and the GPA engine *)

Section GpaMore.
Import Num NumFacts.

(** X1.  [grade_to_points] upper-cases its argument before the lookup: a string
    is accepted exactly when its upper case is one of the six letters, so
    lower-case letters are accepted too; the result is then that letter's
    points.  Any other string fails with [InvalidGrade], and the error
    carries the grade as it was given. *)
Theorem grade_to_points_case_insensitive (s : string) :
  (forall g, Str.upper s = GradeLetter_str g ->
             grade_to_points (Some s) = Ok (Some (points_of g))) /\
  ((forall g, Str.upper s <> GradeLetter_str g) ->
   grade_to_points (Some s) = Err (InvalidGrade s)).
Proof.
  split.
  - intros g Hg. unfold grade_to_points. cbn zeta. rewrite Hg.
    destruct g; vm_compute; reflexivity.
  - intros Hno. unfold grade_to_points, GRADE_POINTS. cbn zeta.
    rewrite !lookup_insert.
    repeat (case_decide;
            [exfalso;
             match goal with
             | Heq : _ = Str.upper s |- _ =>
                 first [ apply (Hno A); by rewrite <- Heq
                       | apply (Hno B); by rewrite <- Heq
                       | apply (Hno C); by rewrite <- Heq
                       | apply (Hno D); by rewrite <- Heq
                       | apply (Hno E); by rewrite <- Heq
                       | apply (Hno F); by rewrite <- Heq ]
             end |]).
    by rewrite lookup_empty.
Qed.

Lemma gpa_step_ok_inv (st st' : gpa_state) (c : Course) :
  gpa_step st c = Ok st' ->
  (code c ∉ seen st) /\ ~ bad_hours c /\ seen st' = seen st ∪ {[ code c ]}.
Proof.
  intros Hs. destruct (decide (code c ∈ seen st)) as [Hin | Hnot].
  - by rewrite gpa_step_duplicate in Hs.
  - destruct (bad_hours_dec c) as [Hb | Hb].
    + by rewrite gpa_step_bad in Hs.
    + rewrite gpa_step_ok in Hs by done. injection Hs as <-. done.
Qed.

Lemma gpa_loop_ok_inv (cs : list Course) (st st' : gpa_state) :
  gpa_loop cs st = Ok st' ->
  NoDup (List.map code cs) /\
  (forall c, c ∈ cs -> code c ∉ seen st) /\
  (forall c, c ∈ cs -> ~ bad_hours c).
Proof.
  revert st. induction cs as [|c cs IH]; intros st Hrun.
  - repeat split; [constructor | |]; intros c Hc; by apply elem_of_nil in Hc.
  - cbn in Hrun. destruct (gpa_step st c) as [st1|] eqn:Hs; [|done]. cbn in Hrun.
    apply gpa_step_ok_inv in Hs as (Hfresh & Hok & Hseen).
    destruct (IH _ Hrun) as (Hnd & Hfr & Hoks).
    assert (Hrest : forall c', c' ∈ cs -> code c' ∈ seen st1 -> False).
    { intros c' Hc'. by apply Hfr. }
    repeat split.
    + cbn. apply NoDup_cons. split; [|done].
      intros Hin. apply list_elem_of_In, in_map_iff in Hin as (c' & Hcode & Hc').
      apply (Hrest c'); [by apply list_elem_of_In|].
      rewrite Hseen, Hcode, elem_of_union, elem_of_singleton. by right.
    + intros c' Hc'. apply elem_of_cons in Hc' as [-> | Hc']; [done|].
      intros Hin. apply (Hrest c' Hc').
      rewrite Hseen, elem_of_union. by left.
    + intros c' Hc'. apply elem_of_cons in Hc' as [-> | Hc']; [done | by apply Hoks].
Qed.

Lemma compute_gpa_ok_inv (cs : list Course) (r : GPACalcResponse) :
  compute_gpa cs = Ok r ->
  NoDup (List.map code cs) /\ (forall c, c ∈ cs -> ~ bad_hours c).
Proof.
  intros Hr. rewrite compute_gpa_unfold in Hr.
  destruct (gpa_loop cs gpa_init) as [st|] eqn:Hrun; [|done].
  apply gpa_loop_ok_inv in Hrun as (Hnd & _ & Hok). done.
Qed.

Lemma good_hours (c : Course) :
  ~ bad_hours c -> is_graded c = true ->
  0 < credit_hours c /\ credit_hours c <= 10.
Proof.
  intros Hok Hg.
  destruct (Qlt_le_dec 0 (credit_hours c)) as [H0 | H0];
    [destruct (Qlt_le_dec 10 (credit_hours c)) as [H10 | H10]|].
  - exfalso. apply Hok. split; [done | by right].
  - done.
  - exfalso. apply Hok. split; [done | by left].
Qed.


Lemma compute_gpa_ungraded (cs : list Course) :
  NoDup (List.map code cs) ->
  (forall c, c ∈ cs -> is_graded c = false) ->
  compute_gpa cs =
    Ok {| gpa := 0; total_points := 0 # 1000; total_credits := 0 # 1000 |}.
Proof.
  intros Hnd Hung.
  assert (Hnil : List.filter is_graded cs = []).
  { clear Hnd. induction cs as [|c cs IH]; [reflexivity|]. cbn.
    rewrite (Hung c) by (by left). apply IH. intros c' Hc'. apply Hung. by right. }
  rewrite compute_gpa_ok; [| done |].
  - rewrite Hnil. reflexivity.
  - intros c Hc [Hg _]. rewrite (Hung c Hc) in Hg. done.
Qed.

(** X3.  Without any graded course (the empty list included) [compute_gpa]
    divides nothing: over distinct codes it returns a GPA of 0 with zero
    points and zero credits. *)
Theorem compute_gpa_without_grades (cs : list Course) :
  NoDup (List.map code cs) ->
  (forall c, c ∈ cs -> is_graded c = false) ->
  compute_gpa cs =
    Ok {| gpa := 0; total_points := 0 # 1000; total_credits := 0 # 1000 |}.
Proof. apply compute_gpa_ungraded. Qed.

End GpaMore.

Lemma grade_to_points_case_insensitive_witness :
  grade_to_points (Some "e") = Ok (Some (1 # 2)) /\
  grade_to_points (Some "A+") = Err (InvalidGrade "A+").
Proof.
  split.
  - apply (proj1 (grade_to_points_case_insensitive "e") E). reflexivity.
  - apply (proj2 (grade_to_points_case_insensitive "A+")).
    intros g. destruct g; discriminate.
Defined.

Lemma compute_gpa_without_grades_witness :
  compute_gpa [mk "T1" 3 None; mk "T2" 0 None] =
    Ok {| gpa := 0; total_points := 0 # 1000; total_credits := 0 # 1000 |}.
Proof.
  apply compute_gpa_without_grades.
  - apply (bool_decide_unpack _). vm_compute. reflexivity.
  - intros c Hc. apply list_elem_of_In in Hc. cbn in Hc.
    destruct Hc as [<- | [<- | []]]; reflexivity.
Defined.


Module NumMore.
Import Num NumFacts.



(** Rounding to three decimals moves a value by at most 0.0005. *)
Lemma round3_error (x : Q) :
  x - (1 # 2000) <= round3 x /\ round3 x <= x + (1 # 2000).
Proof.
  unfold round3, round_half_even.
  set (y := x * 1000). set (f := Qfloor y).
  assert (Hlo : inject_Z f <= y) by apply Qfloor_le.
  assert (Hhi : y < inject_Z (f + 1)) by apply Qlt_floor.
  rewrite inject_Z_plus in Hhi. change (inject_Z 1) with 1 in Hhi.
  assert (Hq : forall k : Z, k # 1000 == inject_Z k * (1 # 1000)).
  { intros k. unfold Qeq. cbn. lia. }
  clearbody f.
  destruct (Qcompare (y - inject_Z f) (1 # 2)) eqn:Hc.
  - apply Qeq_alt in Hc.
    destruct (Z.even f); rewrite Hq, ?inject_Z_plus; change (inject_Z 1) with 1;
      subst y; split; lra.
  - apply Qlt_alt in Hc. rewrite Hq. subst y. split; lra.
  - apply Qgt_alt in Hc. rewrite Hq, inject_Z_plus. change (inject_Z 1) with 1.
    subst y. split; lra.
Qed.

End NumMore.

Section GpaBounds.
Import Num NumFacts NumMore.


Lemma points_of_range (g : GradeLetter) : 0 <= points_of g <= 4.
Proof. destruct g; cbn; split; lra. Qed.

(** The running totals stay within the band spanned by the grade points
    met so far. *)
Lemma weighted_sums_bounds (lo hi : Q) (l : list Course) (ap ac : Q) :
  (forall c, c ∈ l ->
     exists g, grade c = Some g /\ lo <= points_of g <= hi /\ 0 < credit_hours c) ->
  lo * ac <= ap <= hi * ac ->
  let P := fold_left Qplus (List.map course_points l) ap in
  let C := fold_left Qplus (List.map credit_hours l) ac in
  ac <= C /\ lo * C <= P <= hi * C /\ (l <> [] -> ac < C).
Proof.
  revert ap ac. induction l as [|c l IH]; intros ap ac Hl Hacc; cbn.
  - repeat split; try lra. done.
  - destruct (Hl c) as (g & Hg & [Hlo Hhi] & Hh); [by left|].
    assert (Hcp : course_points c = points_of g * credit_hours c).
    { unfold course_points. by rewrite Hg. }
    destruct (IH (ap + course_points c) (ac + credit_hours c)) as (HC & HP & _).
    + intros c' Hc'. apply Hl. by right.
    + rewrite Hcp. split; nra.
    + repeat split; try lra; apply HP.
Qed.

Lemma graded_filter_spec (cs : list Course) (c : Course) :
  c ∈ List.filter is_graded cs <-> c ∈ cs /\ is_graded c = true.
Proof. rewrite !list_elem_of_In. apply filter_In. Qed.

(** The shape of a successful result, with the facts on the two sums the
    bounds need. *)
Lemma compute_gpa_sums (cs : list Course) (r : GPACalcResponse) (lo hi : Q) :
  compute_gpa cs = Ok r ->
  (forall c g, c ∈ cs -> grade c = Some g -> lo <= points_of g <= hi) ->
  exists P C,
    r = {| gpa := if ltb 0 C then round3 (P / C) else 0;
           total_points := round3 P; total_credits := round3 C |} /\
    0 <= C /\ lo * C <= P <= hi * C /\
    ((exists c, c ∈ cs /\ is_graded c = true) -> 0 < C).
Proof.
  intros Hr Hrange.
  destruct (compute_gpa_ok_inv cs r Hr) as [Hnd Hbad].
  assert (Hhours : forall c, c ∈ cs -> is_graded c = true ->
                             0 < credit_hours c /\ credit_hours c <= 10).
  { intros c Hc Hg. apply good_hours; [by apply Hbad | done]. }
  rewrite compute_gpa_ok in Hr.
  - injection Hr as <-. eexists _, _. split; [reflexivity|].
    destruct (weighted_sums_bounds lo hi (List.filter is_graded cs) 0 0)
      as (HC & HP & Hpos).
    + intros c [Hc Hg]%graded_filter_spec. unfold is_graded in Hg.
      destruct (grade c) as [g|] eqn:Hgr; [|done].
      exists g. split; [done|]. split; [by apply (Hrange c)|].
      apply (Hhours c Hc). unfold is_graded. by rewrite Hgr.
    + split; lra.
    + split; [exact HC|]. split; [exact HP|].
      intros (c & Hc & Hg). apply Hpos. intros Hnil.
      assert (Hin : c ∈ List.filter is_graded cs) by (by apply graded_filter_spec).
      rewrite Hnil in Hin. by apply elem_of_nil in Hin.
  - done.
  - done.
Qed.

Lemma compute_gpa_bounds (cs : list Course) (r : GPACalcResponse) :
  compute_gpa cs = Ok r ->
  0 <= gpa r <= 4 /\ 0 <= total_points r /\ 0 <= total_credits r.
Proof.
  intros Hr.
  destruct (compute_gpa_sums cs r 0 4 Hr) as (P & C & -> & HC & [HP0 HP4] & _).
  { intros c g _ _. apply points_of_range. }
  cbn. assert (HP : 0 <= P) by lra.
  split; [| split; by apply round3_ge_0].
  destruct (ltb 0 C) eqn:Hpos; [| split; lra].
  apply ltb_lt in Hpos. split.
  - apply round3_ge_0. apply Qle_shift_div_l; [done | lra].
  - apply round3_le_4. apply Qle_shift_div_r; [done | lra].
Qed.



End GpaBounds.



(** ** The CGPA engine *)

Section CgpaMore.
Import Num NumFacts NumMore.

Lemma cgpa_loop_first_failure (pre post : list SemesterRecord) (s : SemesterRecord)
    (e : error) (st : cgpa_state) :
  Forall (fun s' => exists res, compute_gpa (courses s') = Ok res) pre ->
  compute_gpa (courses s) = Err e ->
  cgpa_loop (pre ++ s :: post) st = Err e.
Proof.
  intros Hpre Hs. revert st.
  induction Hpre as [|s' pre [res Hres] _ IH]; intros st; cbn.
  - by rewrite Hs.
  - rewrite Hres. cbn. apply IH.
Qed.

Lemma cgpa_loop_length (sems : list SemesterRecord) (st st' : cgpa_state) :
  cgpa_loop sems st = Ok st' ->
  length (gpas st') = (length (gpas st) + length sems)%nat.
Proof.
  revert st. induction sems as [|s sems IH]; intros st Hrun; cbn in *.
  - injection Hrun as <-. lia.
  - destruct (compute_gpa (courses s)) as [res|]; [|done]. cbn in Hrun.
    rewrite (IH _ Hrun). cbn. rewrite length_app. cbn. lia.
Qed.

(** X6.  [compute_cgpa] accepts a history exactly when [compute_gpa] accepts
    every semester on its own, and then returns one result per semester;
    otherwise it fails with the error of the first semester that is
    rejected, whatever comes after it. *)
Theorem compute_cgpa_outcome (sems : list SemesterRecord) :
  ((exists cg, compute_cgpa sems = Ok cg) <->
   Forall (fun s => exists res, compute_gpa (courses s) = Ok res) sems) /\
  (forall cg, compute_cgpa sems = Ok cg ->
              length (gpa_by_semester cg) = length sems) /\
  (forall pre s post e,
      sems = pre ++ s :: post ->
      Forall (fun s' => exists res, compute_gpa (courses s') = Ok res) pre ->
      compute_gpa (courses s) = Err e ->
      compute_cgpa sems = Err e).
Proof.
  split; [| split].
  - split.
    + intros [cg Hcg]. unfold compute_cgpa in Hcg.
      destruct (cgpa_loop sems _) as [st|] eqn:Hrun; [|done].
      destruct (cgpa_loop_results _ _ _ Hrun) as [results Hall].
      clear -Hall. induction Hall; constructor; [by eexists | done].
    + intros Hall.
      assert (Hres : exists results,
                 Forall2 (fun sem res => compute_gpa (courses sem) = Ok res) sems results).
      { induction Hall as [|s sems' [res Hres] _ [results IH]]; [exists []; constructor|].
        exists (res :: results). by constructor. }
      destruct Hres as [results Hres]. unfold compute_cgpa.
      rewrite (cgpa_loop_ok _ _ _ Hres). by eexists.
  - intros cg Hcg. unfold compute_cgpa in Hcg.
    destruct (cgpa_loop sems _) as [st|] eqn:Hrun; [|done].
    cbn in Hcg. injection Hcg as <-. cbn.
    by rewrite (cgpa_loop_length _ _ _ Hrun).
  - intros pre s post e -> Hpre Hs. unfold compute_cgpa.
    by rewrite (cgpa_loop_first_failure pre post s e _ Hpre Hs).
Qed.

End CgpaMore.

Lemma compute_cgpa_outcome_witness :
  compute_cgpa
    [ {| term := "S1"; courses := [mk "T1" 3 (Some A)] |};
      {| term := "S2"; courses := [mk "T2" 3 (Some B); mk "T2" 3 None] |};
      {| term := "S3"; courses := [mk "T3" 0 (Some C)] |} ]
  = Err (DuplicateCourse "T2").
Proof.
  apply (proj2 (proj2 (compute_cgpa_outcome _))
           [ {| term := "S1"; courses := [mk "T1" 3 (Some A)] |} ]
           {| term := "S2"; courses := [mk "T2" 3 (Some B); mk "T2" 3 None] |}
           [ {| term := "S3"; courses := [mk "T3" 0 (Some C)] |} ]).
  - reflexivity.
  - repeat constructor. eexists. vm_compute. reflexivity.
  - vm_compute. reflexivity.
Defined.

Section SumFacts.
Import Num NumFacts NumMore.

Lemma fold_left_Qplus_acc (l : list Q) (a : Q) : fold_left Qplus l a == a + sum l.
Proof.
  unfold sum. revert a. induction l as [|x l IH]; intros a; cbn.
  - lra.
  - rewrite (IH (a + x)), (IH (0 + x)). lra.
Qed.

Lemma sum_cons (x : Q) (l : list Q) : sum (x :: l) == x + sum l.
Proof. unfold sum at 1. cbn. rewrite fold_left_Qplus_acc. lra. Qed.

Lemma sum_nonneg (l : list Q) : (forall x, x ∈ l -> 0 <= x) -> 0 <= sum l.
Proof.
  induction l as [|x l IH]; intros Hl.
  - unfold sum. cbn. lra.
  - rewrite sum_cons. assert (0 <= x) by (apply Hl; by left).
    assert (0 <= sum l) by (apply IH; intros y Hy; apply Hl; by right). lra.
Qed.

End SumFacts.

Section CgpaRange.
Import Num NumFacts NumMore.

Lemma results_nonneg (sems : list SemesterRecord) (results : list GPACalcResponse) :
  Forall2 (fun sem res => compute_gpa (courses sem) = Ok res) sems results ->
  forall res, res ∈ results -> 0 <= total_points res /\ 0 <= total_credits res.
Proof.
  induction 1 as [|s res sems results Hres _ IH]; intros res' Hin.
  - by apply elem_of_nil in Hin.
  - apply elem_of_cons in Hin as [-> | Hin]; [| by apply IH].
    by destruct (compute_gpa_bounds _ _ Hres) as (_ & ? & ?).
Qed.

Lemma compute_cgpa_results (sems : list SemesterRecord) (cg : CGPAResponse) :
  compute_cgpa sems = Ok cg ->
  exists results,
    Forall2 (fun sem res => compute_gpa (courses sem) = Ok res) sems results /\
    cg = {| cgpa := if ltb 0 (sum (List.map total_credits results))
                    then round3 (sum (List.map total_points results)
                                 / sum (List.map total_credits results))
                    else 0;
            gpa_by_semester := results |}.
Proof.
  intros Hcg. unfold compute_cgpa in Hcg.
  destruct (cgpa_loop sems _) as [st|] eqn:Hrun; [|done].
  destruct (cgpa_loop_results _ _ _ Hrun) as [results Hall].
  exists results. split; [exact Hall|].
  rewrite (cgpa_loop_ok sems results _ Hall) in Hrun. injection Hrun as <-.
  cbn in Hcg. by injection Hcg as <-.
Qed.

(** X8.  The CGPA is never negative, but it is not bounded by 4: the totals of
    each semester are rounded to three decimals before they are added up,
    so a semester of less than 0.0005 credit hours keeps its rounded
    points and loses its credits.  A schema-valid transcript of two A
    grades gets a CGPA of 6. *)
Theorem cgpa_nonnegative_not_capped :
  (forall sems cg, compute_cgpa sems = Ok cg -> 0 <= cgpa cg) /\
  (exists sems cg,
      history_valid sems /\
      (forall s c, s ∈ sems -> c ∈ courses s -> grade c = Some A) /\
      compute_cgpa sems = Ok cg /\ cgpa cg == 6).
Proof.
  split.
  - intros sems cg Hcg.
    destruct (compute_cgpa_results sems cg Hcg) as (results & Hall & ->). cbn.
    pose proof (results_nonneg sems results Hall) as Hnn.
    assert (HP : 0 <= sum (List.map total_points results)).
    { apply sum_nonneg. intros x Hx.
      apply list_elem_of_In, in_map_iff in Hx as (res & <- & Hres).
      by apply Hnn, list_elem_of_In. }
    destruct (ltb 0 _) eqn:Hpos; [|lra]. apply ltb_lt in Hpos.
    apply round3_ge_0. apply Qle_shift_div_l; [done | lra].
  - exists [ {| term := "S1"; courses := [mk "T1" (4 # 10000) (Some A)] |};
             {| term := "S2"; courses := [mk "T2" (1 # 1000) (Some A)] |} ].
    eexists. split; [repeat constructor|]. split.
    + intros s c Hs Hc. apply list_elem_of_In in Hs. cbn in Hs.
      destruct Hs as [<- | [<- | []]]; apply list_elem_of_In in Hc; cbn in Hc;
        destruct Hc as [<- | []]; reflexivity.
    + split; [vm_compute; reflexivity | reflexivity].
Qed.

Lemma sum_zero (l : list Q) : (forall x, x ∈ l -> x == 0) -> sum l == 0.
Proof.
  induction l as [|x l IH]; intros Hl; [reflexivity|].
  rewrite sum_cons, (Hl x) by (by left).
  rewrite IH; [lra|]. intros y Hy. apply Hl. by right.
Qed.

(** X9.  A history without a single graded course (no semesters at all, or only
    planned courses) is not an error for [api_cgpa]: over distinct codes
    within each semester it answers with a CGPA of 0, one result per
    semester, and the classification ["Fail"]. *)
Theorem api_cgpa_without_grades (sems : list SemesterRecord) :
  Forall (fun s => NoDup (List.map code (courses s))) sems ->
  (forall s c, s ∈ sems -> c ∈ courses s -> is_graded c = false) ->
  exists res,
    api_cgpa sems = Ok res /\
    res_cgpa res = 0 /\
    length (res_gpa_by_semester res) = length sems /\
    classification res = "Fail".
Proof.
  intros Hnd Hung.
  set (zero := {| gpa := 0; total_points := 0 # 1000; total_credits := 0 # 1000 |}).
  assert (Hall : Forall2 (fun sem res => compute_gpa (courses sem) = Ok res)
                   sems (List.map (fun _ => zero) sems)).
  { induction sems as [|s sems IH]; [constructor|].
    apply Forall_cons in Hnd as [Hs Hnd]. cbn. constructor.
    - apply compute_gpa_ungraded; [done|]. intros c Hc. apply (Hung s); [by left | done].
    - apply IH; [done|]. intros s' c Hs'. apply Hung. by right. }
  unfold api_cgpa, compute_cgpa. rewrite (cgpa_loop_ok _ _ _ Hall). cbn.
  assert (Hz : sum (List.map total_credits (List.map (fun _ => zero) sems)) == 0).
  { apply sum_zero. intros x Hx.
    apply list_elem_of_In, in_map_iff in Hx as (res & <- & Hres).
    apply in_map_iff in Hres as (s & <- & _). reflexivity. }
  change (fold_left Qplus ?l 0) with (sum l).
  assert (ltb 0 (sum (List.map total_credits (List.map (fun _ => zero) sems))) = false)
    as -> by (apply ltb_ge; lra).
  eexists. split; [reflexivity|]. cbn.
  split; [reflexivity|]. split; [by rewrite length_map | reflexivity].
Qed.

End CgpaRange.

Lemma api_cgpa_without_grades_witness :
  exists res,
    api_cgpa [ {| term := "S1"; courses := [mk "T1" 3 None; mk "T2" 3 None] |} ] = Ok res /\
    res_cgpa res = 0 /\
    length (res_gpa_by_semester res) = 1%nat /\
    classification res = "Fail".
Proof.
  apply (api_cgpa_without_grades
           [ {| term := "S1"; courses := [mk "T1" 3 None; mk "T2" 3 None] |} ]).
  - repeat constructor; apply (bool_decide_unpack _); vm_compute; reflexivity.
  - intros s c Hs Hc. apply list_elem_of_In in Hs. cbn in Hs.
    destruct Hs as [<- | []]. apply list_elem_of_In in Hc. cbn in Hc.
    destruct Hc as [<- | [<- | []]]; reflexivity.
Defined.

Lemma cgpa_nonnegative_not_capped_witness :
  let cg := {| cgpa := 3500 # 1000;
               gpa_by_semester :=
                 [ {| gpa := 4000 # 1000; total_points := 12000 # 1000;
                      total_credits := 3000 # 1000 |};
                   {| gpa := 3000 # 1000; total_points := 9000 # 1000;
                      total_credits := 3000 # 1000 |} ] |} in
  0 <= cgpa cg.
Proof.
  intros cg.
  apply (proj1 cgpa_nonnegative_not_capped
           [ {| term := "S1"; courses := [mk "A" 3 (Some A)] |};
             {| term := "S2"; courses := [mk "B" 3 (Some B)] |} ] cg).
  vm_compute. reflexivity.
Defined.

(** ** The classifier *)

Section ClassifierMore.
Import Num NumFacts.

Local Ltac split_bands x :=
  unfold classify_honors, HONORS_BANDS; cbn [classify_in];
  repeat match goal with
    | |- context [leb ?t x] =>
        let H := fresh "Hband" in
        destruct (leb t x) eqn:H;
        [apply leb_le in H | apply leb_gt in H]; cbv iota
    end.

(** X10.  The five labels and the intervals of CGPA they stand for: First Class
    from 3.7, Second Upper on [3.3, 3.7), Second Lower on [2.7, 3.3), Pass
    on [2.0, 2.7), Fail below 2.0. *)
Theorem classify_honors_intervals (x : Q) :
  (classify_honors x = "First Class Honors" <-> 37 # 10 <= x) /\
  (classify_honors x = "Second Class Upper" <-> 33 # 10 <= x /\ x < 37 # 10) /\
  (classify_honors x = "Second Class Lower" <-> 27 # 10 <= x /\ x < 33 # 10) /\
  (classify_honors x = "Pass" <-> 2 <= x /\ x < 27 # 10) /\
  (classify_honors x = "Fail" <-> x < 2).
Proof.
  split_bands x;
    repeat split; try discriminate; try reflexivity; intros; try lra;
    match goal with H : _ /\ _ |- _ => destruct H; lra end.
Qed.

(** X11.  A higher CGPA never gets a lower classification. *)
Theorem classify_honors_monotone (x y : Q) :
  x <= y ->
  (honors_rank (classify_honors y) <= honors_rank (classify_honors x))%nat.
Proof.
  intros Hxy. split_bands x; split_bands y; try lra; vm_compute; lia.
Qed.

End ClassifierMore.

Lemma classify_honors_monotone_witness :
  (honors_rank (classify_honors (35 # 10)) <= honors_rank (classify_honors (29 # 10)))%nat.
Proof. apply classify_honors_monotone. unfold Qle. cbn. lia. Defined.

(** ** The projection engine *)

Section ProjectionMore.
Import Num NumFacts NumMore.

(** X12.  [project_needed_average] fails with "Unknown target_class" whenever
    the target is not a key of the table, whatever the completed list
    holds; with a valid target it fails exactly when [compute_gpa] rejects
    the completed list, with that error; otherwise it succeeds, echoes the
    target, reports the table's threshold for it, and asks for an average
    between 0 and 4. *)
Theorem project_outcome (completed : list Course) (remaining_credits : Q)
    (target_class : string) :
  (Dict.mem target_class HONORS_BANDS = false ->
   project_needed_average completed remaining_credits target_class
     = Err UnknownTargetClass) /\
  (Dict.mem target_class HONORS_BANDS = true ->
   forall e, compute_gpa completed = Err e ->
     project_needed_average completed remaining_credits target_class = Err e) /\
  (Dict.mem target_class HONORS_BANDS = true ->
   forall current, compute_gpa completed = Ok current ->
     exists r,
       project_needed_average completed remaining_credits target_class = Ok r /\
       proj_target_class r = target_class /\
       Dict.get target_class HONORS_BANDS = Some (target_cgpa r) /\
       0 <= needed_avg_gpa r <= 4).
Proof.
  split; [| split].
  - intros Hmem. unfold project_needed_average. by rewrite Hmem.
  - intros [threshold Hget]%mem_get e He.
    by rewrite (project_after_guard _ _ _ _ Hget), He.
  - intros [threshold Hget]%mem_get current Hcur.
    rewrite (project_after_guard _ _ _ _ Hget), Hcur. cbn [bind].
    destruct (leb remaining_credits 0).
    + eexists. split; [reflexivity|]. cbn. repeat split; [done | lra | lra].
    + eexists. split; [reflexivity|]. cbn. split; [done|]. split; [done|].
      split; [apply round3_ge_0 | apply round3_le_4]; apply clamp_bounds.
Qed.



Lemma msg_needed_not_determined (needed : Q) (target : string) :
  msg_needed needed target <> msg_determined.
Proof. unfold msg_needed, msg_determined. cbn [String.append]. discriminate. Qed.

Lemma project_message (completed : list Course) (remaining_credits : Q)
    (target_class : string) (r : ProjectionResponse) :
  project_needed_average completed remaining_credits target_class = Ok r ->
  (remaining_credits <= 0 /\ message r = msg_determined) \/
  (0 < remaining_credits /\ message r = msg_needed (needed_avg_gpa r) target_class).
Proof.
  intros Hr.
  destruct (Dict.get target_class HONORS_BANDS) as [threshold|] eqn:Hget.
  - rewrite (project_after_guard _ _ _ _ Hget) in Hr.
    destruct (compute_gpa completed) as [current|]; [|done]. cbn [bind] in Hr.
    destruct (leb remaining_credits 0) eqn:Hrem.
    + injection Hr as <-. left. split; [by apply leb_le | reflexivity].
    + rewrite unreachable_test_false in Hr. injection Hr as <-.
      right. split; [by apply leb_gt | reflexivity].
  - unfold project_needed_average, Dict.mem in Hr. by rewrite Hget in Hr.
Qed.

(** X15.  A [ProjectionRequest] that passes validation has
    [remaining_credits > 0], so [api_project] never answers with the
    "already determined" message: a successful answer always carries the
    "You need an average GPA of ..." message for the figure it reports. *)
Theorem api_project_never_determined (completed : list Course)
    (remaining_credits : Q) (target_class : string)
    (req : ProjectionRequest) (r : ProjectionResponse) :
  ProjectionRequest_new completed remaining_credits target_class = Some req ->
  api_project req = Ok r ->
  message r = msg_needed (needed_avg_gpa r) target_class /\
  message r <> msg_determined.
Proof.
  unfold ProjectionRequest_new, api_project.
  destruct (ltb 0 remaining_credits) eqn:Hpos; [|done].
  apply ltb_lt in Hpos. intros [= <-]. cbn. intros Hr.
  destruct (project_message _ _ _ _ Hr) as [[Hle _] | [_ Hmsg]]; [lra|].
  split; [exact Hmsg|]. rewrite Hmsg. apply msg_needed_not_determined.
Qed.

End ProjectionMore.

Lemma project_outcome_witness :
  project_needed_average [mk "DUP" 3 (Some A); mk "DUP" 3 (Some B)] 9 "Distinction"
    = Err UnknownTargetClass /\
  project_needed_average [mk "DUP" 3 (Some A); mk "DUP" 3 (Some B)] 9 "Pass"
    = Err (DuplicateCourse "DUP").
Proof.
  split.
  - apply (proj1 (project_outcome _ 9 "Distinction")). reflexivity.
  - apply (proj1 (proj2 (project_outcome _ 9 "Pass"))); [reflexivity|].
    vm_compute. reflexivity.
Defined.


Lemma api_project_never_determined_witness :
  let r := {| proj_target_class := "Second Class Upper";
              target_cgpa := 330 # 100;
              needed_avg_gpa := 3067 # 1000;
              message := "You need an average GPA of 3.067 across the remaining credits to achieve Second Class Upper." |} in
  message r = msg_needed (needed_avg_gpa r) "Second Class Upper" /\
  message r <> msg_determined.
Proof.
  intros r.
  apply (api_project_never_determined [mk "TST101" 3 (Some A)] 9 "Second Class Upper"
           {| req_completed := [mk "TST101" 3 (Some A)];
              req_remaining_credits := 9;
              req_target_class := "Second Class Upper" |} r).
  - reflexivity.
  - vm_compute. reflexivity.
Defined.

(** ** The advisor *)

Section AdviceMore.
Import Num NumFacts NumMore.

(** What a successful call has computed on the way. *)
Lemma generate_advice_inv (profile : UserProfile) (sems : list SemesterRecord)
    (r : AdviceResponse) :
  generate_advice profile sems = Ok r ->
  exists cg scanned proj,
    compute_cgpa sems = Ok cg /\
    scan_semesters sems {| scan_risk := []; category_scores := [] |} = Ok scanned /\
    project_needed_average (graded_courses sems)
      (py_max 0 (180 - sum (List.map credit_hours (graded_courses sems))))
      (advice_target profile) = Ok proj /\
    insights r =
      (trend_insights (sem_gpas_of cg) ++ category_insights (category_scores scanned))
      ++ [message proj] /\
    risk_courses r = scan_risk scanned /\
    recommendations r =
      match scan_risk scanned with
      | [] => []
      | _ => [ "Focus on re-assessment of weak units: "
               +:+ Str.join ", " (take 5 (scan_risk scanned))
               +:+ (if (5 <? length (scan_risk scanned))%nat then "..." else "") ]
      end ++ fixed_recommendations.
Proof.
  unfold generate_advice.
  destruct (compute_cgpa sems) as [cg|]; [|done]. cbn [bind].
  destruct (scan_semesters sems _) as [scanned|]; [|done]. cbn [bind].
  destruct (project_needed_average _ _ _) as [proj|]; [|done]. cbn [bind].
  intros [= <-]. exists cg, scanned, proj. repeat split.
Qed.

Lemma project_ok_inv (completed : list Course) (remaining_credits : Q)
    (target_class : string) (r : ProjectionResponse) :
  project_needed_average completed remaining_credits target_class = Ok r ->
  Dict.mem target_class HONORS_BANDS = true /\
  exists current, compute_gpa completed = Ok current.
Proof.
  intros Hr. destruct (Dict.get target_class HONORS_BANDS) as [threshold|] eqn:Hget.
  - split; [apply mem_get; by eexists|].
    rewrite (project_after_guard _ _ _ _ Hget) in Hr.
    destruct (compute_gpa completed) as [current|]; [by eexists | done].
  - unfold project_needed_average, Dict.mem in Hr. by rewrite Hget in Hr.
Qed.

Lemma project_ok (completed : list Course) (remaining_credits : Q)
    (target_class : string) (current : GPACalcResponse) :
  Dict.mem target_class HONORS_BANDS = true ->
  compute_gpa completed = Ok current ->
  exists r, project_needed_average completed remaining_credits target_class = Ok r.
Proof.
  intros [threshold Hget]%mem_get Hcur.
  rewrite (project_after_guard _ _ _ _ Hget), Hcur. cbn [bind].
  destruct (leb remaining_credits 0); by eexists.
Qed.

(** X16.  On a schema-valid history [generate_advice] returns advice exactly
    when the target (the profile's, or the default) is a key of the table,
    no semester repeats a code, and no graded code occurs twice in the
    whole history. *)
Theorem advice_succeeds_iff (profile : UserProfile) (sems : list SemesterRecord) :
  history_valid sems ->
  (exists r, generate_advice profile sems = Ok r) <->
  Dict.mem (advice_target profile) HONORS_BANDS = true /\
  Forall (fun s => NoDup (List.map code (courses s))) sems /\
  NoDup (List.map code (graded_courses sems)).
Proof.
  intros Hval. split.
  - intros [r Hr].
    destruct (generate_advice_inv _ _ _ Hr) as (cg & scanned & proj & Hcg & _ & Hproj & _).
    destruct (project_ok_inv _ _ _ _ Hproj) as [Hmem [current Hcur]].
    split; [exact Hmem|]. split; [| by apply (compute_gpa_ok_inv _ _ Hcur)].
    destruct (compute_cgpa_results _ _ Hcg) as (results & Hall & _).
    clear -Hall. induction Hall as [|s res sems results Hres _ IH]; constructor; [|done].
    by apply (compute_gpa_ok_inv _ _ Hres).
  - intros (Hmem & Hsems & Hgraded).
    destruct (compute_cgpa_total sems Hval Hsems) as [cg Hcg].
    destruct (scan_semesters_total sems {| scan_risk := []; category_scores := [] |})
      as [scanned Hscan].
    destruct (project_ok (graded_courses sems)
                (py_max 0 (180 - sum (List.map credit_hours (graded_courses sems))))
                (advice_target profile)
                _ Hmem (compute_gpa_ok _ Hgraded
                          (fun c Hc => Course_valid_hours c
                                         (graded_courses_valid sems c Hval Hc))))
      as [proj Hproj].
    unfold generate_advice. rewrite Hcg. cbn [bind]. rewrite Hscan. cbn [bind].
    rewrite Hproj. cbn [bind]. by eexists.
Qed.

End AdviceMore.

Lemma advice_succeeds_iff_witness :
  exists r,
    generate_advice
      {| user_id := "u1"; user_name := "User"; program := "SE"; target_class := None |}
      [ {| term := "S1"; courses := [mk_cat "MTH" 3 (Some C) "math"] |};
        {| term := "S2"; courses := [mk_cat "PRG" 3 (Some B) "programming"] |} ]
    = Ok r.
Proof.
  apply (proj2 (advice_succeeds_iff
                  {| user_id := "u1"; user_name := "User"; program := "SE";
                     target_class := None |}
                  [ {| term := "S1"; courses := [mk_cat "MTH" 3 (Some C) "math"] |};
                    {| term := "S2"; courses := [mk_cat "PRG" 3 (Some B) "programming"] |} ]
                  ltac:(repeat constructor))).
  split; [reflexivity|]. split.
  - repeat constructor; apply (bool_decide_unpack _); vm_compute; reflexivity.
  - apply (bool_decide_unpack _). vm_compute. reflexivity.
Defined.

Section AdviceRisk.
Import Num NumFacts.

Lemma scan_course_risk (st st' : scan_state) (c : Course) :
  scan_course st c = Ok st' ->
  scan_risk st' = scan_risk st ++ (if at_risk c then [risk_label c] else []).
Proof.
  unfold scan_course, at_risk, risk_label.
  destruct (grade c) as [g|].
  - rewrite grade_to_points_letter. cbn [bind]. intros [= <-]. cbn [scan_risk].
    destruct (ltb (points_of g) 2); [reflexivity | by rewrite app_nil_r].
  - intros [= <-]. by rewrite app_nil_r.
Qed.

Lemma scan_courses_risk (cs : list Course) (st st' : scan_state) :
  scan_courses cs st = Ok st' ->
  scan_risk st' = scan_risk st ++ List.map risk_label (List.filter at_risk cs).
Proof.
  revert st. induction cs as [|c cs IH]; intros st Hrun; cbn in Hrun.
  - injection Hrun as <-. cbn. by rewrite app_nil_r.
  - destruct (scan_course st c) as [st1|] eqn:Hs; [|done]. cbn in Hrun.
    rewrite (IH _ Hrun), (scan_course_risk _ _ _ Hs). cbn [List.filter].
    destruct (at_risk c); cbn [List.map]; rewrite <- app_assoc; [reflexivity|].
    reflexivity.
Qed.

Lemma scan_semesters_risk (sems : list SemesterRecord) (st st' : scan_state) :
  scan_semesters sems st = Ok st' ->
  scan_risk st' =
    scan_risk st ++ List.map risk_label (List.filter at_risk (flat_map courses sems)).
Proof.
  revert st. induction sems as [|s sems IH]; intros st Hrun; cbn in Hrun.
  - injection Hrun as <-. cbn. by rewrite app_nil_r.
  - destruct (scan_courses (courses s) st) as [st1|] eqn:Hs; [|done]. cbn in Hrun.
    rewrite (IH _ Hrun), (scan_courses_risk _ _ _ Hs). cbn [flat_map].
    by rewrite List.filter_app, map_app, app_assoc.
Qed.

(** X18.  The at-risk list of an advice is, in the order of the history, the
    label ["CODE (GRADE)"] of every course graded D, E or F, and of no
    other course; the recommendations are the four fixed ones, preceded by
    one more exactly when that list is not empty. *)
Theorem advice_risk_courses (profile : UserProfile) (sems : list SemesterRecord)
    (r : AdviceResponse) :
  generate_advice profile sems = Ok r ->
  risk_courses r =
    List.map risk_label (List.filter at_risk (flat_map courses sems)) /\
  (forall c, at_risk c = true <->
             grade c = Some D \/ grade c = Some E \/ grade c = Some F) /\
  length (recommendations r) =
    (if decide (risk_courses r = []) then 4 else 5)%nat /\
  exists focus, recommendations r = focus ++ fixed_recommendations.
Proof.
  intros Hr.
  destruct (generate_advice_inv _ _ _ Hr)
    as (cg & scanned & proj & _ & Hscan & _ & _ & Hrisk & Hrec).
  rewrite Hrisk, Hrec, (scan_semesters_risk _ _ _ Hscan). cbn [scan_risk app].
  split; [reflexivity|]. split.
  - intros c. unfold at_risk. destruct (grade c) as [[]|]; cbn;
      split; intros H; try discriminate H; try tauto;
      destruct H as [H | [H | H]]; discriminate H.
  - split; [| by eexists].
    destruct (List.map risk_label _) as [|x l]; [reflexivity|].
    rewrite decide_False by done. reflexivity.
Qed.

End AdviceRisk.

Lemma advice_risk_courses_witness :
  let profile := {| user_id := "u1"; user_name := "User"; program := "SE";
                    target_class := None |} in
  let sems := [ {| term := "S1"; courses := [mk "MTH" 3 (Some D); mk "PRG" 3 (Some B)] |};
                {| term := "S2"; courses := [mk "PHY" 3 (Some F); mk "CHM" 3 None] |} ] in
  let r := {| insights :=
                [ insight_declining;
                  msg_needed (3404 # 1000) "Second Class Upper" ];
              recommendations :=
                "Focus on re-assessment of weak units: MTH (D), PHY (F)"
                :: fixed_recommendations;
              risk_courses := ["MTH (D)"; "PHY (F)"] |} in
  generate_advice profile sems = Ok r /\
  risk_courses r =
    List.map risk_label (List.filter at_risk (flat_map courses sems)) /\
  length (recommendations r) = 5%nat.
Proof.
  intros profile sems r.
  assert (Hr : generate_advice profile sems = Ok r) by (vm_compute; reflexivity).
  split; [exact Hr|].
  destruct (advice_risk_courses profile sems r Hr) as (Hrisk & _ & Hlen & _).
  split; [exact Hrisk | exact Hlen].
Defined.

Section AdviceCategories.
Import Num NumFacts.

Lemma length_append (s t : string) :
  String.length (s +:+ t) = (String.length s + String.length t)%nat.
Proof.
  induction s as [|c s IH]; [reflexivity|].
  rewrite StrFacts.append_cons. cbn. by rewrite IH.
Qed.

Lemma append_cancel_r (s1 s2 t : string) : s1 +:+ t = s2 +:+ t -> s1 = s2.
Proof.
  revert s2. induction s1 as [|c s1 IH]; intros [|d s2] H.
  - reflexivity.
  - apply (f_equal String.length) in H. rewrite !length_append in H. cbn in H. lia.
  - apply (f_equal String.length) in H. rewrite !length_append in H. cbn in H. lia.
  - rewrite !StrFacts.append_cons in H. injection H as -> H. by rewrite (IH _ H).
Qed.

Lemma insight_weak_category_inj (k1 k2 : string) :
  insight_weak_category k1 = insight_weak_category k2 -> k1 = k2.
Proof.
  unfold insight_weak_category. intros H.
  apply String.app_inj in H. by apply append_cancel_r in H.
Qed.

Lemma eqb_sym_string (a b : string) : String.eqb a b = String.eqb b a.
Proof.
  destruct (String.eqb a b) eqn:H1, (String.eqb b a) eqn:H2; try reflexivity.
  - apply String.eqb_eq in H1. subst. by rewrite String.eqb_refl in H2.
  - apply String.eqb_eq in H2. subst. by rewrite String.eqb_refl in H1.
Qed.

(** What [setdefault(k', []).append(v)] does to the list found under a
    key. *)
Lemma setdefault_append_get (k k' : string) (v : Q) (d : list (string * list Q)) :
  default [] (Dict.get k (setdefault_append k' v d)) =
    default [] (Dict.get k d) ++ (if String.eqb k k' then [v] else []).
Proof.
  induction d as [|[k0 arr0] d IH]; cbn.
  - destruct (String.eqb k k'); reflexivity.
  - destruct (String.eqb k' k0) eqn:Hk'; cbn.
    + apply String.eqb_eq in Hk'. subst k0.
      destruct (String.eqb k k'); cbn; [reflexivity | by rewrite app_nil_r].
    + destruct (String.eqb k k0) eqn:Hk; cbn; [|exact IH].
      apply String.eqb_eq in Hk. subst k0.
      rewrite eqb_sym_string, Hk'. by rewrite app_nil_r.
Qed.

Lemma get_None_keys {V : Type} (k : string) (d : list (string * V)) :
  Dict.get k d = None <-> k ∉ List.map fst d.
Proof.
  induction d as [|[k0 v0] d IH]; cbn.
  - split; [intros _ H; by apply elem_of_nil in H | done].
  - rewrite not_elem_of_cons. destruct (String.eqb k k0) eqn:Hk.
    + apply String.eqb_eq in Hk. split; [done | intros [H _]; done].
    + apply String.eqb_neq in Hk. rewrite IH. tauto.
Qed.

Lemma get_elem {V : Type} (k : string) (v : V) (d : list (string * V)) :
  NoDup (List.map fst d) -> (k, v) ∈ d <-> Dict.get k d = Some v.
Proof.
  induction d as [|[k0 v0] d IH]; cbn; intros Hnd.
  - split; [intros H; by apply elem_of_nil in H | done].
  - apply NoDup_cons in Hnd as [Hk0 Hnd]. rewrite elem_of_cons, (IH Hnd).
    destruct (String.eqb k k0) eqn:Hk.
    + apply String.eqb_eq in Hk. subst k0. split.
      * intros [[= ->] | Hget]; [reflexivity|].
        exfalso. apply Hk0. apply dec_stable. intros Hno.
        apply get_None_keys in Hno. congruence.
      * intros [= ->]. by left.
    + apply String.eqb_neq in Hk. split; [| by right].
      intros [[= -> _] | H]; done.
Qed.

Lemma setdefault_append_keys (k : string) (v : Q) (d : list (string * list Q)) :
  List.map fst (setdefault_append k v d) =
    if Dict.mem k d then List.map fst d else List.map fst d ++ [k].
Proof.
  unfold Dict.mem. induction d as [|[k0 arr0] d IH]; cbn; [reflexivity|].
  destruct (String.eqb k k0); cbn; [reflexivity|].
  rewrite IH. by destruct (Dict.get k d).
Qed.

Lemma setdefault_append_inv (k : string) (v : Q) (d : list (string * list Q)) :
  scores_inv d -> scores_inv (setdefault_append k v d).
Proof.
  intros [Hnd Hne]. split.
  - rewrite setdefault_append_keys. unfold Dict.mem.
    destruct (Dict.get k d) eqn:Hget; [done|].
    apply NoDup_app. split; [done|]. split; [| apply NoDup_singleton].
    intros x Hx Hx'. apply list_elem_of_singleton in Hx'. subst x.
    by apply get_None_keys in Hget.
  - clear Hnd. induction Hne as [|[k0 arr0] d Harr Hne IH]; cbn.
    + by repeat constructor.
    + destruct (String.eqb k k0); constructor; try done.
      cbn. intros Hnil. by apply app_eq_nil in Hnil as [_ ?].
Qed.

Lemma category_points_cons (k : string) (c : Course) (cs : list Course) :
  category_points k (c :: cs) =
    match category_key c with
    | Some k' =>
        if String.eqb k k'
        then [match grade c with Some g => points_of g | None => 0 end]
        else []
    | None => []
    end ++ category_points k cs.
Proof.
  unfold category_points. cbn [List.filter].
  destruct (category_key c) as [k'|]; [|reflexivity].
  destruct (String.eqb k k'); reflexivity.
Qed.

Lemma category_points_app (k : string) (cs1 cs2 : list Course) :
  category_points k (cs1 ++ cs2) = category_points k cs1 ++ category_points k cs2.
Proof. unfold category_points. by rewrite List.filter_app, map_app. Qed.

(** One course of the scan: the points are appended under the course's
    key, and nothing else changes. *)
Lemma scan_course_scores (st st' : scan_state) (c : Course) :
  scan_course st c = Ok st' ->
  scores_inv (category_scores st) ->
  scores_inv (category_scores st') /\
  forall k, default [] (Dict.get k (category_scores st')) =
            default [] (Dict.get k (category_scores st)) ++ category_points k [c].
Proof.
  unfold scan_course. intros Hs Hinv.
  assert (Hcp : forall k, category_points k [c] =
            match category_key c with
            | Some k' =>
                if String.eqb k k'
                then [match grade c with Some g => points_of g | None => 0 end]
                else []
            | None => []
            end).
  { intros k. rewrite category_points_cons. by rewrite app_nil_r. }
  unfold category_key in Hcp.
  destruct (grade c) as [g|].
  - rewrite grade_to_points_letter in Hs. cbn [bind] in Hs. injection Hs as <-.
    cbn [category_scores].
    destruct (category c) as [cat|]; [destruct (String.eqb cat "")|].
    + split; [done|]. intros k. by rewrite Hcp, app_nil_r.
    + split; [by apply setdefault_append_inv|]. intros k.
      by rewrite Hcp, setdefault_append_get.
    + split; [done|]. intros k. by rewrite Hcp, app_nil_r.
  - injection Hs as <-. split; [done|]. intros k. by rewrite Hcp, app_nil_r.
Qed.

Lemma scan_courses_scores (cs : list Course) (st st' : scan_state) :
  scan_courses cs st = Ok st' ->
  scores_inv (category_scores st) ->
  scores_inv (category_scores st') /\
  forall k, default [] (Dict.get k (category_scores st')) =
            default [] (Dict.get k (category_scores st)) ++ category_points k cs.
Proof.
  revert st. induction cs as [|c cs IH]; intros st Hrun Hinv; cbn in Hrun.
  - injection Hrun as <-. split; [done|]. intros k. by rewrite app_nil_r.
  - destruct (scan_course st c) as [st1|] eqn:Hs; [|done]. cbn in Hrun.
    destruct (scan_course_scores _ _ _ Hs Hinv) as [Hinv1 Hget1].
    destruct (IH _ Hrun Hinv1) as [Hinv' Hget'].
    split; [done|]. intros k.
    rewrite Hget', Hget1, <- app_assoc.
    by rewrite <- (category_points_app k [c] cs).
Qed.

Lemma scan_semesters_scores (sems : list SemesterRecord) (st st' : scan_state) :
  scan_semesters sems st = Ok st' ->
  scores_inv (category_scores st) ->
  scores_inv (category_scores st') /\
  forall k, default [] (Dict.get k (category_scores st')) =
            default [] (Dict.get k (category_scores st))
            ++ category_points k (flat_map courses sems).
Proof.
  revert st. induction sems as [|s sems IH]; intros st Hrun Hinv; cbn in Hrun.
  - injection Hrun as <-. split; [done|]. intros k. by rewrite app_nil_r.
  - destruct (scan_courses (courses s) st) as [st1|] eqn:Hs; [|done]. cbn in Hrun.
    destruct (scan_courses_scores _ _ _ Hs Hinv) as [Hinv1 Hget1].
    destruct (IH _ Hrun Hinv1) as [Hinv' Hget'].
    split; [done|]. intros k.
    rewrite Hget', Hget1, <- app_assoc. cbn [flat_map].
    by rewrite category_points_app.
Qed.

(** After the scan, a key is in the dictionary exactly when some course
    was filed under it, and then with the points of those courses. *)
Lemma scanned_scores (sems : list SemesterRecord) (scanned : scan_state)
    (k : string) (arr : list Q) :
  scan_semesters sems {| scan_risk := []; category_scores := [] |} = Ok scanned ->
  (k, arr) ∈ category_scores scanned <->
  arr = category_points k (flat_map courses sems) /\ arr <> [].
Proof.
  intros Hscan.
  destruct (scan_semesters_scores _ _ _ Hscan) as [[Hnd Hne] Hget].
  { split; constructor. }
  specialize (Hget k). cbn in Hget.
  rewrite (get_elem k arr _ Hnd). split.
  - intros Hk. rewrite Hk in Hget. cbn in Hget. split; [done|].
    rewrite Forall_forall in Hne. apply (Hne (k, arr)).
    by apply (get_elem k arr _ Hnd).
  - intros [-> Hnil].
    destruct (Dict.get k (category_scores scanned)) as [arr|]; cbn in Hget.
    + by rewrite Hget.
    + by rewrite <- Hget in Hnil.
Qed.

Lemma category_insights_elem (scores : list (string * list Q)) (x : string) :
  x ∈ category_insights scores <->
  exists k arr,
    (k, arr) ∈ scores /\ arr <> [] /\
    sum arr / inject_Z (Z.of_nat (length arr)) < 23 # 10 /\
    x = insight_weak_category k.
Proof.
  unfold category_insights. rewrite list_elem_of_In, in_flat_map. split.
  - intros ([k arr] & Hin & Hx). exists k, arr.
    destruct arr as [|a arr]; [done|].
    destruct (ltb _ _) eqn:Hlt; [|done].
    destruct Hx as [<- | []]. apply ltb_lt in Hlt.
    repeat split; [by apply list_elem_of_In | done | exact Hlt].
  - intros (k & arr & Hin & Hne & Hlt & ->). exists (k, arr).
    split; [by apply list_elem_of_In|].
    destruct arr as [|a arr]; [done|].
    apply ltb_lt in Hlt. rewrite Hlt. by left.
Qed.

Lemma trend_insights_are_trend (gs : list Q) (x : string) :
  x ∈ trend_insights gs -> is_trend_insight x = true.
Proof.
  rewrite <- trend_insights_all_trend, list_elem_of_In, filter_In. tauto.
Qed.

(** X19.  A weakness insight for a category appears in the advice exactly when
    the graded courses filed under it (category compared in lower case)
    have a mean of grade points below 2.3. *)
Theorem advice_category_weakness (profile : UserProfile)
    (sems : list SemesterRecord) (r : AdviceResponse) (k : string) :
  generate_advice profile sems = Ok r ->
  let pts := category_points k (flat_map courses sems) in
  insight_weak_category k ∈ insights r <->
  pts <> [] /\ sum pts / inject_Z (Z.of_nat (length pts)) < 23 # 10.
Proof.
  intros Hr pts.
  destruct (generate_advice_inv _ _ _ Hr)
    as (cg & scanned & proj & _ & Hscan & Hproj & Hins & _).
  rewrite Hins, !elem_of_app, list_elem_of_singleton, category_insights_elem.
  split.
  - intros [[Htrend | (k' & arr & Hin & Hne & Hlt & Heq)] | Hmsg].
    + apply trend_insights_are_trend in Htrend.
      by rewrite weak_category_not_trend in Htrend.
    + apply insight_weak_category_inj in Heq. subst k'.
      apply (scanned_scores _ _ _ _ Hscan) in Hin as [-> _]. done.
    + exfalso.
      destruct (project_message _ _ _ _ Hproj) as [[_ Hm] | [_ Hm]];
        rewrite Hm in Hmsg; discriminate Hmsg.
  - intros [Hne Hlt]. left. right. exists k, pts.
    split; [by apply (scanned_scores _ _ _ _ Hscan) | done].
Qed.

End AdviceCategories.

Lemma advice_category_weakness_witness :
  let profile := {| user_id := "u1"; user_name := "User"; program := "SE";
                    target_class := None |} in
  let sems := [ {| term := "S1"; courses := [mk_cat "MTH" 3 (Some C) "math"] |};
                {| term := "S2"; courses := [mk_cat "PRG" 3 (Some B) "programming"] |} ] in
  let r := {| insights :=
                [ insight_improving;
                  insight_weak_category "math";
                  msg_needed (3328 # 1000) "Second Class Upper" ];
              recommendations := fixed_recommendations;
              risk_courses := [] |} in
  (insight_weak_category "math" ∈ insights r <->
   category_points "math" (flat_map courses sems) <> [] /\
   Num.sum (category_points "math" (flat_map courses sems))
     / inject_Z (Z.of_nat (length (category_points "math" (flat_map courses sems))))
     < 23 # 10) /\
  insight_weak_category "math" ∈ insights r.
Proof.
  intros profile sems r.
  assert (Hr : generate_advice profile sems = Ok r) by (vm_compute; reflexivity).
  split; [exact (advice_category_weakness profile sems r "math" Hr)|].
  apply (proj2 (advice_category_weakness profile sems r "math" Hr)).
  split; [discriminate | reflexivity].
Defined.

(** ** Code normalization and the [Course] constructor *)

Module StrMore.
Import Str StrFacts.

Local Ltac step :=
  rewrite ?append_cons, ?append_empty;
  cbn [all_space lstrip rstrip upper map andb String.length].

Lemma upper_char_space (c : ascii) : is_space (upper_char c) = is_space c.
Proof.
  unfold upper_char. destruct (is_lower c) eqn:Hl; [|reflexivity].
  destruct (lower_letter c Hl) as (Hs & _ & _).
  fold (upper_char c) in *.
  assert (Hu : upper_char c = ascii_of_N (N_of_ascii c - 32))
    by (unfold upper_char; by rewrite Hl).
  rewrite <- Hu. destruct (lower_letter c Hl) as (-> & -> & _). reflexivity.
Qed.

Lemma upper_char_idem (c : ascii) : upper_char (upper_char c) = upper_char c.
Proof.
  destruct (is_lower c) eqn:Hl.
  - by destruct (lower_letter c Hl) as (_ & _ & ->).
  - unfold upper_char at 2. rewrite Hl. unfold upper_char. by rewrite Hl.
Qed.

Lemma upper_idem (s : string) : upper (upper s) = upper s.
Proof.
  unfold upper. induction s as [|c s IH]; step; [reflexivity|].
  by rewrite upper_char_idem, IH.
Qed.

Lemma lstrip_upper (s : string) : lstrip (upper s) = upper (lstrip s).
Proof.
  unfold upper. induction s as [|c s IH]; step; [reflexivity|].
  rewrite upper_char_space. destruct (is_space c); [exact IH | reflexivity].
Qed.

Lemma rstrip_upper (s : string) : rstrip (upper s) = upper (rstrip s).
Proof.
  unfold upper. induction s as [|c s IH]; step; [reflexivity|].
  rewrite IH, upper_char_space.
  destruct (rstrip s); step; [|reflexivity].
  destruct (is_space c); reflexivity.
Qed.

Lemma strip_upper (s : string) : strip (upper s) = upper (strip s).
Proof. unfold strip. by rewrite lstrip_upper, rstrip_upper. Qed.

Lemma rstrip_idem (s : string) : rstrip (rstrip s) = rstrip s.
Proof.
  induction s as [|c s IH]; step; [reflexivity|].
  destruct (rstrip s) as [|a r] eqn:Hr.
  - destruct (is_space c) eqn:Hc; step; [reflexivity|]. by rewrite Hc.
  - step. cbn [rstrip] in IH. by rewrite IH.
Qed.

Lemma lstrip_head (s : string) :
  lstrip s = "" \/ exists c r, lstrip s = String c r /\ is_space c = false.
Proof.
  induction s as [|c s IH]; step; [by left|].
  destruct (is_space c) eqn:Hc; [exact IH|]. right. by exists c, s.
Qed.

Lemma rstrip_head (c : ascii) (s : string) :
  is_space c = false -> exists r, rstrip (String c s) = String c r.
Proof.
  intros Hc. step. destruct (rstrip s); [|by eexists].
  rewrite Hc. by eexists.
Qed.

Lemma strip_idem (s : string) : strip (strip s) = strip s.
Proof.
  unfold strip. destruct (lstrip_head s) as [-> | (c & r & -> & Hc)]; [reflexivity|].
  destruct (rstrip_head c r Hc) as [r' Hr]. rewrite Hr.
  cbn [lstrip]. rewrite Hc, <- Hr. apply rstrip_idem.
Qed.

Lemma length_map (f : ascii -> ascii) (s : string) :
  String.length (map f s) = String.length s.
Proof. induction s as [|c s IH]; cbn; [reflexivity | by rewrite IH]. Qed.

Lemma length_lstrip (s : string) : (String.length (lstrip s) <= String.length s)%nat.
Proof.
  induction s as [|c s IH]; step; [lia|]. destruct (is_space c); cbn; lia.
Qed.

Lemma length_rstrip (s : string) : (String.length (rstrip s) <= String.length s)%nat.
Proof.
  induction s as [|c s IH]; step; [lia|].
  destruct (rstrip s); [destruct (is_space c)|]; cbn in *; lia.
Qed.

Lemma strip_all_space (s : string) : all_space s = true -> strip s = "".
Proof. intros H. unfold strip. by rewrite (lstrip_all_space _ H). Qed.

End StrMore.

Section NormalizationMore.
Import Num NumFacts.

(** X20.  [normalize_code] is idempotent: a code that went through it is a
    fixed point of [strip], of [upper] and of the normalization itself, so
    a stored code passes through the constructor unchanged. *)
Theorem normalize_code_idempotent (v : string) :
  normalize_code (normalize_code v) = normalize_code v /\
  Str.strip (normalize_code v) = normalize_code v /\
  Str.upper (normalize_code v) = normalize_code v.
Proof.
  unfold normalize_code.
  assert (Hs : Str.strip (Str.upper (Str.strip v)) = Str.upper (Str.strip v))
    by (by rewrite StrMore.strip_upper, StrMore.strip_idem).
  split; [by rewrite Hs, StrMore.upper_idem|].
  split; [exact Hs | apply StrMore.upper_idem].
Qed.

(** X21.  For a code and a name of ASCII characters, the length constraint
    of [Course.code] is checked on the code as given, before it is
    normalized: the code of a constructed course is never longer than the
    given one, hence at most 16 characters, but it can be shorter than the
    schema's minimum of 2; a code made of whitespace only is accepted and
    becomes the empty code. *)
Theorem Course_new_code_length (raw_code raw_name : string) (hours : Q)
    (g : option GradeLetter) (sem : option Z) (cat : option string) (c : Course) :
  ascii_only raw_code = true ->
  ascii_only raw_name = true ->
  Course_new raw_code raw_name hours g sem cat = Some c ->
  (String.length (code c) <= String.length raw_code <= 16)%nat /\
  (Str.all_space raw_code = true -> code c = "").
Proof.
  intros _ _ Hc. destruct (Course_new_spec _ _ _ _ _ _ _ Hc) as [-> _].
  unfold Course_new in Hc. destruct (_ && _) eqn:Hchecks; [|done].
  do 3 (apply andb_true_iff in Hchecks as [Hchecks _]).
  unfold length_between in Hchecks.
  apply andb_true_iff in Hchecks as [_ Hmax]. apply Nat.leb_le in Hmax.
  split.
  - split; [|exact Hmax]. unfold normalize_code, Str.upper, Str.strip.
    rewrite StrMore.length_map.
    pose proof (StrMore.length_rstrip (Str.lstrip raw_code)).
    pose proof (StrMore.length_lstrip raw_code). lia.
  - intros Hsp. unfold normalize_code. by rewrite (StrMore.strip_all_space _ Hsp).
Qed.

End NormalizationMore.

Lemma Course_new_code_length_witness :
  let c := {| code := ""; name := "Blank"; credit_hours := 3; grade := Some A;
              semester := None; category := None |} in
  Course_new "   " "Blank" 3 (Some A) None None = Some c /\
  (String.length (code c) <= 3 <= 16)%nat /\
  code c = "".
Proof.
  intros c.
  assert (Hc : Course_new "   " "Blank" 3 (Some A) None None = Some c) by reflexivity.
  split; [exact Hc|].
  destruct (Course_new_code_length "   " "Blank" 3 (Some A) None None c
              eq_refl eq_refl Hc) as [Hlen Hblank].
  split; [exact Hlen | apply Hblank; reflexivity].
Defined.

(** * Further properties in double precision *)

(** X7.  The CGPA is computed from the rounded totals of the semesters and
    is not always the GPA of the same courses taken as one list: an E of
    0.1 credit hours in one semester and a B of 0.7 credit hours in the
    next give the CGPA 2.688, while [compute_gpa] on the two courses
    together gives 2.687. *)
Theorem cgpa_differs_from_flattened_gpa :
  (exists r,
     Dbl.compute_cgpa
       [ {| Dbl.term := "S1"; Dbl.courses := [Dbl.mk "E1" 1 10 (Some E)] |};
         {| Dbl.term := "S2"; Dbl.courses := [Dbl.mk "B1" 7 10 (Some B)] |} ] = Ok r /\
     Dbl.cgpa r = Dbl.milli 2688) /\
  (exists r,
     Dbl.compute_gpa [Dbl.mk "E1" 1 10 (Some E); Dbl.mk "B1" 7 10 (Some B)] = Ok r /\
     Dbl.gpa r = Dbl.milli 2687).
Proof. split; eexists; split; vm_compute; reflexivity. Qed.

Section DblProjectionMore.
Import Dbl.


End DblProjectionMore.


Section DblAdviceMore.
Import Dbl.


End DblAdviceMore.

